(** * watchgit: the repository registry of [db.c]

    A shallow embedding of [db.c] and [db.h].  The program keeps a table of
    (alias, path) pairs in an SQLite file.  Every access goes through
    [sqlite3_exec] on an SQL text that the program builds with [sprintf].

    Layout of the development:
    - [CText]: C strings, [sprintf], [strtol], decimal rendering;
    - [Sqlite]: the part of the SQLite engine the program talks to;
    - the process environment (files, connections, output, handler calls)
      as a state monad, and the functions of [db.c] in it;
    - facts about each layer, then the properties of the registry. *)

From Stdlib Require Import ZArith List String Ascii Bool Lia Permutation Sorted.
Import ListNotations.
Open Scope string_scope.
Open Scope Z_scope.

(** ** C strings and the libc functions used by [db.c] *)

Module CText.

(** The double-quote character (code 34) and the line feed (code 10). *)
Definition dquote : ascii := "034"%char.
Definition newline : ascii := "010"%char.
Definition q : string := String dquote "".
Definition nl : string := String newline "".

Definition strlen (s : string) : Z := Z.of_nat (String.length s).

(** [strcmp]: zero exactly on equal strings; the sign follows byte order. *)
Definition strcmp (a b : string) : Z :=
  match String.compare a b with Eq => 0 | Lt => -1 | Gt => 1 end.

(** *** Decimal rendering, as [%u] and [%d] print it *)

Definition digit_char (d : Z) : ascii := ascii_of_N (Z.to_N (48 + d)).

Fixpoint utoa_aux (fuel : nat) (n : Z) (acc : string) : string :=
  match fuel with
  | O => acc
  | S f =>
      let acc' := String (digit_char (n mod 10)) acc in
      if n <? 10 then acc' else utoa_aux f (n / 10) acc'
  end.

(** Twenty digits cover every 64-bit value. *)
Definition utoa (n : Z) : string := utoa_aux 20 n "".

Definition itoa (n : Z) : string :=
  if n <? 0 then String "-" (utoa (- n)) else utoa n.

(** *** [sprintf] with the conversions the program uses: [%s] and [%u] *)

Inductive arg := AStr (s : string) | AUint (n : Z).

Definition render (a : arg) : string :=
  match a with AStr s => s | AUint n => utoa n end.

Fixpoint sprintf (fmt : string) (args : list arg) : string :=
  match fmt with
  | EmptyString => EmptyString
  | String c rest =>
      match rest with
      | EmptyString => String c EmptyString
      | String c' rest' =>
          if (Ascii.eqb c "%" && (Ascii.eqb c' "s" || Ascii.eqb c' "u"))%bool
          then match args with
               | a :: args' => render a ++ sprintf rest' args'
               | [] => sprintf rest' []
               end
          else String c (sprintf rest args)
      end
  end.

(** [snprintf] writes at most [size - 1] characters. *)
Definition snprintf (size : nat) (fmt : string) (args : list arg) : string :=
  substring 0 (size - 1) (sprintf fmt args).

(** *** [strtol] in base 10 on an LP64 platform *)

Definition LONG_MAX : Z := 9223372036854775807.
Definition LONG_MIN : Z := -9223372036854775808.
Definition INT_MAX : Z := 2147483647.
Definition INT_MIN : Z := -2147483648.

Definition isspace (c : ascii) : bool :=
  let n := Z.of_N (N_of_ascii c) in ((9 <=? n) && (n <=? 13) || (n =? 32))%bool.

Definition isdigit (c : ascii) : bool :=
  let n := Z.of_N (N_of_ascii c) in ((48 <=? n) && (n <=? 57))%bool.

Definition digit_val (c : ascii) : Z := Z.of_N (N_of_ascii c) - 48.

Fixpoint skip_space (s : string) : string :=
  match s with
  | String c r => if isspace c then skip_space r else s
  | EmptyString => s
  end.

(** The run of digits at the head of [s]: its value on top of [acc], how
    many digits were read on top of [cnt], and the unread rest. *)
Fixpoint scan_digits (s : string) (acc : Z) (cnt : nat) : Z * nat * string :=
  match s with
  | String c r =>
      if isdigit c then scan_digits r (acc * 10 + digit_val c) (S cnt)
      else (acc, cnt, s)
  | EmptyString => (acc, cnt, s)
  end.

Definition clamp_long (v : Z) : Z :=
  if v >? LONG_MAX then LONG_MAX else if v <? LONG_MIN then LONG_MIN else v.

(** [strtol nptr] returns the value and the text at [endptr].  When no digit
    is read the value is 0 and [endptr] is [nptr] itself. *)
Definition strtol (nptr : string) : Z * string :=
  let s := skip_space nptr in
  let '(neg, s') :=
    match s with
    | String c r =>
        if Ascii.eqb c "-" then (true, r)
        else if Ascii.eqb c "+" then (false, r) else (false, s)
    | EmptyString => (false, s)
    end in
  let '(v, cnt, rest) := scan_digits s' 0 0 in
  match cnt with
  | O => (0, nptr)
  | S _ => (clamp_long (if neg then - v else v), rest)
  end.

(** Storing a [long] into an [int] keeps the low 32 bits (two's complement). *)
Definition int_of_long (v : Z) : Z := (v + 2147483648) mod 4294967296 - 2147483648.

End CText.
Import CText.

(** ** The SQLite engine, as far as [db.c] uses it

    SQLite is an external library.  This module models the statements that
    the format strings of [db.c] produce: the table creation, the two
    [PRAGMA schema_version] forms, the insert, the two selects and the
    delete.  A text of any other shape is answered with [SQLITE_ERROR]; the
    properties below quantify only over texts of the modelled shapes, and the
    concrete examples use texts that SQLite itself accepts or rejects in the
    same way.

    Two rules of SQLite's language matter for texts built by interpolation:
    - a token in double quotes runs to the next double quote that is not
      doubled, and a doubled double quote inside it stands for one;
    - a double-quoted token is an identifier first: where a column of that
      name (in any letter case) is in scope it denotes the column, and only
      otherwise is it read as a string literal. *)

Module Sqlite.

Definition SQLITE_OK : Z := 0.
Definition SQLITE_ERROR : Z := 1.
Definition SQLITE_ABORT : Z := 4.
Definition SQLITE_IOERR : Z := 10.
Definition SQLITE_CANTOPEN : Z := 14.
Definition SQLITE_CONSTRAINT : Z := 19.
Definition SQLITE_NOTADB : Z := 26.

(** One row of [repos_table(id, aliases, paths)]. *)
Record row := mkRow { id : Z; aliases : string; paths : string }.

(** A database file: the table (absent until created, rows in rowid order),
    the AUTOINCREMENT high-water mark and the schema cookie that
    [PRAGMA schema_version] reads and writes. *)
Record database := mkDb {
  repos_table : option (list row);
  sequence : Z;
  schema_cookie : Z
}.

Definition empty_db : database := mkDb None 0 0.

Inductive column := ColAliases | ColPaths.
Inductive operand := OText (s : string) | OColumn (c : column).

Inductive stmt :=
| SCreate
| SPragmaSet (v : Z)
| SPragmaGet
| SInsert (a p : string)
| SSelectAll
| SSelectPaths (o : operand)
| SDelete (o : operand).

(** *** Reading a statement *)

Fixpoint strip_prefix (p s : string) : option string :=
  match p with
  | EmptyString => Some s
  | String c p' =>
      match s with
      | String c' s' => if Ascii.eqb c c' then strip_prefix p' s' else None
      | EmptyString => None
      end
  end.

(** The body of a double-quoted token, after its opening quote: the content
    and the text after the closing quote. *)
Fixpoint dq_body (s : string) : option (string * string) :=
  match s with
  | EmptyString => None
  | String c r =>
      if Ascii.eqb c dquote then
        match r with
        | String c' r' =>
            if Ascii.eqb c' dquote
            then option_map (fun '(b, t) => (String dquote b, t)) (dq_body r')
            else Some (EmptyString, r)
        | EmptyString => Some (EmptyString, r)
        end
      else option_map (fun '(b, t) => (String c b, t)) (dq_body r)
  end.

Definition dq_token (s : string) : option (string * string) :=
  match s with
  | String c r => if Ascii.eqb c dquote then dq_body r else None
  | EmptyString => None
  end.

Definition lower (c : ascii) : ascii :=
  let n := N_of_ascii c in
  if ((65 <=? n) && (n <=? 90))%N then ascii_of_N (n + 32) else c.

Fixpoint lowercase (s : string) : string :=
  match s with
  | EmptyString => EmptyString
  | String c r => String (lower c) (lowercase r)
  end.

(** The names under which the integer key can be addressed. *)
Definition names_rowid (s : string) : bool :=
  let l := lowercase s in
  ((l =? "id") || (l =? "rowid") || (l =? "oid") || (l =? "_rowid_"))%string.

(** What a double-quoted token denotes in a WHERE clause over
    [repos_table].  A token naming the integer key is left outside the
    model ([None]): comparing a text column with it involves SQLite's
    numeric conversions. *)
Definition resolve (name : string) : option operand :=
  let l := lowercase name in
  if (l =? "aliases")%string then Some (OColumn ColAliases)
  else if (l =? "paths")%string then Some (OColumn ColPaths)
  else if names_rowid name then None
  else Some (OText name).

Definition create_text : string :=
  "CREATE TABLE repos_table(id INTEGER PRIMARY KEY AUTOINCREMENT, aliases TEXT UNIQUE, paths TEXT UNIQUE);".
Definition pragma_get_text : string := "PRAGMA schema_version".
Definition pragma_set_prefix : string := "PRAGMA schema_version = ".
Definition select_all_text : string :=
  "SELECT aliases, paths FROM repos_table ORDER BY aliases ASC".
Definition insert_prefix : string :=
  "INSERT INTO repos_table (aliases, paths) VALUES(".
Definition select_prefix : string :=
  "SELECT paths FROM repos_table WHERE aliases=".
Definition delete_prefix : string :=
  "DELETE FROM repos_table WHERE aliases=".

Definition parse_pragma_set (r : string) : option stmt :=
  let '(v, cnt, rest) := scan_digits r 0 0 in
  match cnt, skip_space rest with
  | S _, EmptyString => Some (SPragmaSet v)
  | _, _ => None
  end.

Definition parse_insert (r : string) : option stmt :=
  match dq_token r with
  | Some (a, r1) =>
      match strip_prefix ", " r1 with
      | Some r2 =>
          match dq_token r2 with
          | Some (p, r3) => if (r3 =? ")")%string then Some (SInsert a p) else None
          | None => None
          end
      | None => None
      end
  | None => None
  end.

Definition parse_where (k : operand -> stmt) (r : string) : option stmt :=
  match dq_token r with
  | Some (name, EmptyString) => option_map k (resolve name)
  | _ => None
  end.

Definition parse (sql : string) : option stmt :=
  if (sql =? create_text)%string then Some SCreate
  else if (sql =? pragma_get_text)%string then Some SPragmaGet
  else if (sql =? select_all_text)%string then Some SSelectAll
  else match strip_prefix pragma_set_prefix sql with
  | Some r => parse_pragma_set r
  | None =>
  match strip_prefix insert_prefix sql with
  | Some r => parse_insert r
  | None =>
  match strip_prefix select_prefix sql with
  | Some r => parse_where SSelectPaths r
  | None =>
  match strip_prefix delete_prefix sql with
  | Some r => parse_where SDelete r
  | None => None
  end end end end.

(** *** Running a statement *)

Definition eval (o : operand) (r : row) : string :=
  match o with
  | OText s => s
  | OColumn ColAliases => aliases r
  | OColumn ColPaths => paths r
  end.

(** [aliases = <operand>], compared byte by byte (BINARY collation). *)
Definition selected (o : operand) (r : row) : bool :=
  (aliases r =? eval o r)%string.

(** ORDER BY aliases ASC: insertion into the byte-wise ascending order. *)
Fixpoint insert_by_alias (r : row) (l : list row) : list row :=
  match l with
  | [] => [r]
  | x :: l' =>
      if (aliases r <=? aliases x)%string then r :: l
      else x :: insert_by_alias r l'
  end.

Fixpoint order_by_alias (l : list row) : list row :=
  match l with
  | [] => []
  | r :: l' => insert_by_alias r (order_by_alias l')
  end.

(** Either UNIQUE column already holds the new value. *)
Definition conflicts (a p : string) (rows : list row) : bool :=
  existsb (fun r => (aliases r =? a) || (paths r =? p))%string rows.

(** The outcome of one statement: status, database afterwards, column
    names and result rows. *)
Definition outcome : Type := Z * database * list string * list (list string).

Definition failed (rc : Z) (d : database) : outcome := (rc, d, [], []).

Definition run (s : stmt) (d : database) : outcome :=
  match s with
  | SCreate =>
      match repos_table d with
      | Some _ => failed SQLITE_ERROR d
      | None =>
          (SQLITE_OK,
           mkDb (Some []) (sequence d) (int_of_long (schema_cookie d + 1)), [], [])
      end
  | SPragmaSet v =>
      (SQLITE_OK, mkDb (repos_table d) (sequence d) (int_of_long v), [], [])
  | SPragmaGet =>
      (SQLITE_OK, d, ["schema_version"], [[itoa (schema_cookie d)]])
  | SInsert a p =>
      match repos_table d with
      | None => failed SQLITE_ERROR d
      | Some rows =>
          if conflicts a p rows then failed SQLITE_CONSTRAINT d
          else
            let i := sequence d + 1 in
            (SQLITE_OK, mkDb (Some (rows ++ [mkRow i a p])%list) i (schema_cookie d), [], [])
      end
  | SSelectAll =>
      match repos_table d with
      | None => failed SQLITE_ERROR d
      | Some rows =>
          (SQLITE_OK, d, ["aliases"; "paths"],
           map (fun r => [aliases r; paths r]) (order_by_alias rows))
      end
  | SSelectPaths o =>
      match repos_table d with
      | None => failed SQLITE_ERROR d
      | Some rows =>
          (SQLITE_OK, d, ["paths"],
           map (fun r => [paths r]) (filter (selected o) rows))
      end
  | SDelete o =>
      match repos_table d with
      | None => failed SQLITE_ERROR d
      | Some rows =>
          (SQLITE_OK,
           mkDb (Some (filter (fun r => negb (selected o r)) rows))
                (sequence d) (schema_cookie d), [], [])
      end
  end.

(** A whole text: read it, then run it. *)
Definition exec (sql : string) (d : database) : outcome :=
  match parse sql with
  | Some s => run s d
  | None => failed SQLITE_ERROR d
  end.

End Sqlite.
Import Sqlite.

(** ** The process environment

    [db.c] acts on the file system, on database connections, on the two
    output streams and, through the caller's handler, on the caller's own
    state.  All of it is threaded through a state monad. *)

Definition State (W A : Type) : Type := W -> A * W.

Definition ret {W A} (a : A) : State W A := fun w => (a, w).

Definition bind {W A B} (m : State W A) (k : A -> State W B) : State W B :=
  fun w => let (a, w') := m w in k a w'.

Declare Scope monad_scope.
Delimit Scope monad_scope with monad.
Notation "x <- m ;; k" := (bind m (fun x => k))
  (at level 61, m at next level, right associativity) : monad_scope.
Notation "' pat <- m ;; k" := (bind m (fun x => match x with pat => k end))
  (at level 61, pat pattern, m at next level, right associativity) : monad_scope.
Notation "m ;; k" := (bind m (fun _ => k))
  (at level 61, right associativity) : monad_scope.
Open Scope monad_scope.

(** What a path names: nothing, something [stat] cannot reach, or a regular
    file that is or is not an SQLite database. *)
Inductive content := NotADb | Db (d : database).
Inductive fentry := Absent | Inaccessible | Regular (c : content).

(** A connection [sqlite3 *] is identified by the file it was opened on. *)
Definition sqlite3 : Type := string.

Definition ENOENT : Z := 2.
Definition EACCES : Z := 13.

Fixpoint remove_first (x : string) (l : list string) : list string :=
  match l with
  | [] => []
  | y :: l' => if (x =? y)%string then l' else y :: remove_first x l'
  end.

Section Process.

(** The state of the caller's handler. *)
Context {H : Type}.

Record world := mkWorld {
  files : string -> fentry;          (* the file system *)
  conns : list sqlite3;              (* connections opened and not yet closed *)
  out : list string;                 (* stdout, oldest first *)
  err : list string;                 (* stderr, oldest first *)
  faults : list bool;                (* pending failures of fallible calls *)
  calls : list (string * string * Z);(* handler invocations with their results *)
  user : H;                          (* the handler's own state *)
  realpath_of : string -> option string;
  wordexp_of : string -> option (list string);
  junk : Z                           (* what an uninitialised int holds *)
}.

Definition set_files f w :=
  mkWorld f (conns w) (out w) (err w) (faults w) (calls w) (user w)
          (realpath_of w) (wordexp_of w) (junk w).
Definition set_conns c w :=
  mkWorld (files w) c (out w) (err w) (faults w) (calls w) (user w)
          (realpath_of w) (wordexp_of w) (junk w).
Definition set_out o w :=
  mkWorld (files w) (conns w) o (err w) (faults w) (calls w) (user w)
          (realpath_of w) (wordexp_of w) (junk w).
Definition set_err e w :=
  mkWorld (files w) (conns w) (out w) e (faults w) (calls w) (user w)
          (realpath_of w) (wordexp_of w) (junk w).
Definition set_faults f w :=
  mkWorld (files w) (conns w) (out w) (err w) f (calls w) (user w)
          (realpath_of w) (wordexp_of w) (junk w).
Definition set_calls c w :=
  mkWorld (files w) (conns w) (out w) (err w) (faults w) c (user w)
          (realpath_of w) (wordexp_of w) (junk w).
Definition set_user u w :=
  mkWorld (files w) (conns w) (out w) (err w) (faults w) (calls w) u
          (realpath_of w) (wordexp_of w) (junk w).

Definition M (A : Type) : Type := State world A.

Definition write_file (path : string) (e : fentry) : M unit :=
  fun w => (tt, set_files (fun p => if (p =? path)%string then e else files w p) w).

(** *** libc *)

(** Every call that can fail for reasons outside the program (allocation,
    opening, running a statement) takes the next pending failure. *)
Definition fault : M bool :=
  fun w => (hd false (faults w), set_faults (tl (faults w)) w).

(** [malloc]: [true] for a fresh block, [false] for NULL. *)
Definition malloc (size : Z) : M bool := f <- fault ;; ret (negb f).

Definition realpath (path : string) : M (option string) :=
  fun w => (realpath_of w path, w).

Definition wordexp (words : string) : M (option (list string)) :=
  fun w => (wordexp_of w words, w).

Definition printf (s : string) : M unit :=
  fun w => (tt, set_out (out w ++ [s])%list w).

Definition perror (s : string) : M unit :=
  fun w => (tt, set_err (err w ++ [s])%list w).

(** [stat]: the return value and [errno]. *)
Definition stat (path : string) : M (Z * Z) :=
  fun w => match files w path with
           | Regular _ => ((0, 0), w)
           | Absent => ((-1, ENOENT), w)
           | Inaccessible => ((-1, EACCES), w)
           end.

Definition unlink (path : string) : M unit :=
  fun w => match files w path with
           | Regular _ => write_file path Absent w
           | _ => (tt, w)
           end.

Definition uninitialised : M Z := fun w => (junk w, w).

(** *** The SQLite API *)

Definition connect (dbh : sqlite3) : M unit :=
  fun w => (tt, set_conns (dbh :: conns w) w).

(** [sqlite3_open] creates the file when it is absent.  A connection object
    comes back even when opening fails and is released only by
    [sqlite3_close]. *)
Definition sqlite3_open (path : string) : M (Z * sqlite3) :=
  f <- fault ;;
  connect path ;;
  if f then ret (SQLITE_CANTOPEN, path)
  else fun w =>
    match files w path with
    | Absent => ((SQLITE_OK, path), snd (write_file path (Regular (Db empty_db)) w))
    | Regular _ => ((SQLITE_OK, path), w)
    | Inaccessible => ((SQLITE_CANTOPEN, path), w)
    end.

(** [sqlite3_open_v2] with [SQLITE_OPEN_READWRITE]: the file must exist. *)
Definition sqlite3_open_v2 (path : string) : M (Z * sqlite3) :=
  f <- fault ;;
  connect path ;;
  if f then ret (SQLITE_CANTOPEN, path)
  else fun w =>
    match files w path with
    | Regular _ => ((SQLITE_OK, path), w)
    | _ => ((SQLITE_CANTOPEN, path), w)
    end.

Definition sqlite3_close (dbh : sqlite3) : M unit :=
  fun w => (tt, set_conns (remove_first dbh (conns w)) w).

(** The callback of [sqlite3_exec]: the context pointer's target, the
    column count, the values and the column names. *)
Definition exec_callback (C : Type) : Type :=
  C -> Z -> list string -> list string -> M (Z * C).

(** Rows go to the callback one by one; a non-zero result stops the
    statement with [SQLITE_ABORT]. *)
Fixpoint deliver {C} (cb : exec_callback C) (ctx : C) (cols : list string)
    (rows : list (list string)) : M (Z * C) :=
  match rows with
  | [] => ret (SQLITE_OK, ctx)
  | r :: rest =>
      '(rc, ctx') <- cb ctx (Z.of_nat (List.length r)) r cols ;;
      if rc =? 0 then deliver cb ctx' cols rest else ret (SQLITE_ABORT, ctx')
  end.

Definition sqlite3_exec {C} (dbh : sqlite3) (sql : string)
    (cb : option (exec_callback C)) (ctx : C) : M (Z * C) :=
  f <- fault ;;
  if f then ret (SQLITE_IOERR, ctx)
  else fun w =>
    match files w dbh with
    | Regular (Db d) =>
        let '(rc, d', cols, rows) := Sqlite.exec sql d in
        let w' := snd (write_file dbh (Regular (Db d')) w) in
        if rc =? SQLITE_OK then
          match cb with
          | Some cb => deliver cb ctx cols rows w'
          | None => ((SQLITE_OK, ctx), w')
          end
        else ((rc, ctx), w')
    | Regular NotADb => ((SQLITE_NOTADB, ctx), w)
    | _ => ((SQLITE_CANTOPEN, ctx), w)
    end.

(** ** [db.h] *)

Definition SCHEMA_VERSION : Z := 1.

(** [db_iter_func_t]: the handler gets a column name and a value and
    returns an int; it may change its own state. *)
Definition db_iter_func_t : Type := string -> string -> H -> Z * H.

(** Calling through the function pointer; the call and its result are
    recorded in [calls]. *)
Definition invoke (f : db_iter_func_t) (col_name thing : string) : M Z :=
  fun w =>
    let (r, u) := f col_name thing (user w) in
    (r, set_user u (set_calls (calls w ++ [(col_name, thing, r)])%list w)).

(** ** [db.c] *)

Definition DB_LOCATION : string := "~/.watchgit.db".
Definition PATH_MAX : Z := 4096.

Record callback_container := mkContainer { callback : db_iter_func_t }.

Definition insert_query : string :=
  "INSERT INTO repos_table (aliases, paths) VALUES(" ++ q ++ "%s" ++ q ++ ", "
    ++ q ++ "%s" ++ q ++ ")".

Definition add_repo_to_db (dbh : sqlite3) (alias path : string) : M Z :=
  let status := SQLITE_ERROR in
  fullquery <- malloc (strlen insert_query + PATH_MAX + strlen alias + 1) ;;
  if negb fullquery then ret status
  else
    abspath <- realpath path ;;
    match abspath with
    | None => perror "realpath" ;; ret status
    | Some abspath =>
        let fullquery := sprintf insert_query [AStr alias; AStr abspath] in
        '(status, _) <- sqlite3_exec dbh fullquery None tt ;;
        ret status
    end.

Definition close_db_handle (dbh : sqlite3) : M unit := sqlite3_close dbh.

Definition create_table_query : string :=
  "CREATE TABLE repos_table(id INTEGER PRIMARY KEY "
    ++ "AUTOINCREMENT, aliases TEXT UNIQUE, paths TEXT UNIQUE);".

Definition create_new_db (path : string) : M (option sqlite3) :=
  let error dbh := (sqlite3_close dbh ;; unlink path ;; ret None) in
  '(rc, dbh) <- sqlite3_open path ;;
  if negb (rc =? SQLITE_OK) then
    printf ("Failed to create a new database." ++ nl) ;; ret None
  else
    '(rc, _) <- sqlite3_exec dbh create_table_query None tt ;;
    if negb (rc =? SQLITE_OK) then error dbh
    else
      let query := snprintf 128 ("PRAGMA schema_version = %u" ++ nl)
                            [AUint SCHEMA_VERSION] in
      '(rc, _) <- sqlite3_exec dbh query None tt ;;
      if negb (rc =? SQLITE_OK) then error dbh
      else ret (Some dbh).

(** The loop [for (i = 0; i < argc; i++) status |= callback(col_name[i], argv[i])],
    with [n] iterations left. *)
Fixpoint callback_loop (f : db_iter_func_t) (n i : nat)
    (argv col_name : list string) (status : Z) : M Z :=
  match n with
  | O => ret status
  | S n' =>
      r <- invoke f (nth i col_name "") (nth i argv "") ;;
      callback_loop f n' (S i) argv col_name (Z.lor status r)
  end.

Definition foreach_repo_callback : exec_callback callback_container :=
  fun container argc argv col_name =>
    status <- callback_loop (callback container) (Z.to_nat argc) 0 argv col_name 0 ;;
    ret (status, container).

Definition foreach_query : string :=
  "SELECT aliases, paths " ++ "FROM repos_table ORDER BY aliases ASC".

Definition foreach_repo (dbh : sqlite3) (function : db_iter_func_t) : M Z :=
  let container := mkContainer function in
  '(rc, _) <- sqlite3_exec dbh foreach_query (Some foreach_repo_callback) container ;;
  if negb (rc =? SQLITE_OK) then ret (-1) else ret 0.

Definition forsome_query : string :=
  "SELECT paths FROM " ++ "repos_table WHERE aliases=" ++ q ++ "%s" ++ q.

Definition forsome_repos (dbh : sqlite3) (function : db_iter_func_t)
    (alias : string) : M Z :=
  let status := SQLITE_ERROR in
  let container := mkContainer function in
  fullquery <- malloc (strlen forsome_query + strlen alias) ;;
  if negb fullquery then ret status
  else
    let fullquery := sprintf forsome_query [AStr alias] in
    '(status, _) <- sqlite3_exec dbh fullquery (Some foreach_repo_callback) container ;;
    ret status.

Definition schema_version_callback : exec_callback Z :=
  fun version argc argv col_name =>
    if (negb (argc =? 1) || negb (strcmp (nth 0 col_name "") "schema_version" =? 0))%bool
    then ret (-1, -1)
    else
      let '(val, endptr) := strtol (nth 0 argv "") in
      if ((nth 0 argv "" =? "")%string || negb (endptr =? "")%string)%bool
      then ret (-1, -1)
      else ret (0, int_of_long val).

Definition get_schema_version (dbh : sqlite3) : M Z :=
  version <- uninitialised ;;
  '(rc, version) <- sqlite3_exec dbh "PRAGMA schema_version"
                                 (Some schema_version_callback) version ;;
  if negb (rc =? SQLITE_OK) then ret (-1) else ret version.

Definition get_db_handle : M (option sqlite3) :=
  p <- wordexp DB_LOCATION ;;
  match p with
  | None => ret None
  | Some [] => ret None  (* no word: [we_wordv[0]] is NULL, nothing to open *)
  | Some (path :: _) =>
      '(rc, errno) <- stat path ;;
      if negb (rc =? 0) then
        if errno =? ENOENT then create_new_db path
        else perror "stat" ;; ret None
      else
        '(rc, dbh) <- sqlite3_open_v2 path ;;
        if negb (rc =? SQLITE_OK) then ret None
        else
          v <- get_schema_version dbh ;;
          if negb (v =? SCHEMA_VERSION) then
            printf ("Corrupt database or old schema." ++ nl) ;;
            printf (sprintf ("DB: %s" ++ nl) [AStr path]) ;;
            close_db_handle dbh ;;
            ret None
          else ret (Some dbh)
  end.

Definition remove_query : string :=
  "DELETE FROM " ++ "repos_table WHERE aliases=" ++ q ++ "%s" ++ q.

Definition remove_repo_from_db (dbh : sqlite3) (alias : string) : M Z :=
  let status := SQLITE_ERROR in
  fullquery <- malloc (strlen remove_query + strlen alias) ;;
  if negb fullquery then ret status
  else
    let fullquery := sprintf remove_query [AStr alias] in
    '(status, _) <- sqlite3_exec dbh fullquery None tt ;;
    ret status.

End Process.

Arguments world : clear implicits.

(** ** Vocabulary of the properties *)

(** Texts made of decimal digits only, and texts with at least one. *)
Fixpoint all_digits (s : string) : bool :=
  match s with
  | EmptyString => true
  | String c r => isdigit c && all_digits r
  end.

Fixpoint has_digit (s : string) : bool :=
  match s with
  | EmptyString => false
  | String c r => isdigit c || has_digit r
  end.

Definition strip_sign (s : string) : string :=
  match s with
  | String c r => if (Ascii.eqb c "-" || Ascii.eqb c "+")%bool then r else s
  | EmptyString => s
  end.

(** The texts that are a decimal integer from the first character that is
    not white space to the last one: optional sign, then digits only. *)
Definition integer_text (s : string) : bool :=
  let d := strip_sign (skip_space s) in
  (all_digits d && negb (d =? ""))%string.

(** Texts without a double-quote character. *)
Fixpoint no_dquote (s : string) : bool :=
  match s with
  | EmptyString => true
  | String c r => negb (Ascii.eqb c dquote) && no_dquote r
  end.

Definition starts_with_dquote (s : string) : bool :=
  match s with
  | String c _ => Ascii.eqb c dquote
  | EmptyString => false
  end.

(** Texts that, between double quotes in a WHERE clause, name a column of
    [repos_table] (or its integer key) instead of standing for themselves. *)
Definition names_column (s : string) : bool :=
  let l := lowercase s in
  ((l =? "aliases") || (l =? "paths") || names_rowid s)%string.

(** The table behind a connection, when its file is a database. *)
Definition entries {H} (w : world H) (dbh : sqlite3) : option (list row) :=
  match files w dbh with
  | Regular (Db d) => repos_table d
  | _ => None
  end.

(** The world once the next pending failure has been taken, and once the
    database behind [dbh] has been written back. *)
Definition pop {H} (w : world H) : world H := set_faults (tl (faults w)) w.

Definition with_db {H} (dbh : sqlite3) (d : database) (w : world H) : world H :=
  snd (write_file dbh (Regular (Db d)) w).

(** Everything but the handler's state and the record of its calls is the
    same in [w] and [w']. *)
Definition same_environment {H} (w w' : world H) : Prop :=
  files w' = files w /\ conns w' = conns w /\ out w' = out w
  /\ err w' = err w /\ faults w' = faults w.


Definition alias_le (r1 r2 : row) : Prop := (aliases r1 <=? aliases r2)%string = true.

(** The two lines [get_db_handle] prints when it refuses a store. *)
Definition refusal (path : string) : list string :=
  ["Corrupt database or old schema." ++ nl; "DB: " ++ path ++ nl].

(** A file whose version cannot be read, or is not [SCHEMA_VERSION]. *)
Definition stale (c : content) : Prop :=
  match c with
  | NotADb => True
  | Db d => INT_MIN <= schema_cookie d <= INT_MAX /\ schema_cookie d <> SCHEMA_VERSION
  end.



(** ** Sample data for the concrete instances *)

Module Sample.

Definition store : string := "/home/u/.watchgit.db".

Definition row_b : row := mkRow 1 "b" "/repos/b".
Definition row_a : row := mkRow 2 "a" "/repos/a".
Definition two_rows : list row := [row_b; row_a].

(** A process whose store file is [fe], with [fl] as pending failures.
    Every path resolves under [/repos] except the one named [missing]. *)
Definition process (fe : fentry) (fl : list bool) : world unit :=
  mkWorld (fun p => if (p =? store)%string then fe else Absent)
          [] [] [] fl [] tt
          (fun p => if (p =? "missing")%string then None else Some ("/repos/" ++ p))
          (fun s => if (s =? "~/.watchgit.db")%string then Some [store] else None)
          0.

Definition filled : world unit := process (Regular (Db (mkDb (Some two_rows) 2 1))) [].
Definition fresh : world unit := process (Regular (Db (mkDb (Some []) 0 1))) [].

(** A handler that accepts everything, and one that rejects every column
    with a different bit. *)
Definition accept : @db_iter_func_t unit := fun _ _ u => (0, u).
Definition reject : @db_iter_func_t unit :=
  fun c _ u => (if (c =? "aliases")%string then 4 else 1, u).

Definition obrien : string := "o" ++ q ++ "brien".

End Sample.

(** * Facts about the C string functions *)

Section DecimalFacts.

Lemma digit_char_spec (d : Z) :
  0 <= d < 10 ->
  isdigit (digit_char d) = true /\ digit_val (digit_char d) = d
  /\ isspace (digit_char d) = false
  /\ Ascii.eqb (digit_char d) "-" = false
  /\ Ascii.eqb (digit_char d) "+" = false.
Proof.
  intros Hd.
  assert (Hc : d = 0 \/ d = 1 \/ d = 2 \/ d = 3 \/ d = 4 \/ d = 5 \/ d = 6
               \/ d = 7 \/ d = 8 \/ d = 9) by lia.
  repeat (destruct Hc as [-> | Hc]); [.. | subst d]; repeat split; reflexivity.
Qed.

Lemma scan_digits_step (d : Z) (r : string) (acc : Z) (cnt : nat) :
  0 <= d < 10 ->
  scan_digits (String (digit_char d) r) acc cnt = scan_digits r (acc * 10 + d) (S cnt).
Proof.
  intros Hd. destruct (digit_char_spec d Hd) as (Hdig & Hval & _).
  simpl. now rewrite Hdig, Hval.
Qed.

(** Scanning what [utoa_aux] printed gives the number back. *)
Lemma scan_utoa_aux (f : nat) :
  forall n acc, 0 <= n < 10 ^ Z.of_nat f ->
  exists k : nat, (0 < f -> 0 < k)%nat /\
    forall a c, scan_digits (utoa_aux f n acc) a c
                = scan_digits acc (a * 10 ^ Z.of_nat k + n) (c + k)%nat.
Proof.
  induction f as [|f IH]; intros n acc Hn.
  - exists 0%nat. split; [lia|]. intros a c. simpl in *.
    replace (a * 1 + n) with a by lia. now rewrite Nat.add_0_r.
  - rewrite Nat2Z.inj_succ, Z.pow_succ_r in Hn by lia.
    cbn [utoa_aux]. destruct (n <? 10) eqn:Hlt.
    + apply Z.ltb_lt in Hlt. exists 1%nat. split; [lia|]. intros a c.
      rewrite Z.mod_small by lia. rewrite scan_digits_step by lia.
      replace (c + 1)%nat with (S c) by lia.
      change (10 ^ Z.of_nat 1) with 10. reflexivity.
    + apply Z.ltb_ge in Hlt.
      assert (Hq : 0 <= n / 10 < 10 ^ Z.of_nat f).
      { split; [apply Z.div_pos; lia|]. apply Z.div_lt_upper_bound; lia. }
      destruct (IH (n / 10) (String (digit_char (n mod 10)) acc) Hq) as (k & _ & Hk).
      exists (S k). split; [lia|]. intros a c. rewrite Hk.
      rewrite scan_digits_step by (apply Z.mod_pos_bound; lia).
      rewrite Nat2Z.inj_succ, Z.pow_succ_r by lia.
      replace (c + S k)%nat with (S (c + k)) by lia.
      f_equal. pose proof (Z.div_mod n 10 ltac:(lia)). lia.
Qed.

Lemma utoa_aux_head (f : nat) :
  forall n acc, (0 < f)%nat ->
  exists d r, 0 <= d < 10 /\ utoa_aux f n acc = String (digit_char d) r.
Proof.
  induction f as [|f IH]; intros n acc Hf; [lia|].
  cbn [utoa_aux]. destruct (n <? 10).
  - exists (n mod 10), acc. split; [apply Z.mod_pos_bound; lia | reflexivity].
  - destruct f as [|f'].
    + exists (n mod 10), acc. split; [apply Z.mod_pos_bound; lia | reflexivity].
    + apply IH. lia.
Qed.

Lemma strtol_unsigned (s : string) (c : ascii) :
  isspace c = false -> Ascii.eqb c "-" = false -> Ascii.eqb c "+" = false ->
  strtol (String c s) =
    let '(v, cnt, rest) := scan_digits (String c s) 0 0 in
    match cnt with O => (0, String c s) | S _ => (clamp_long v, rest) end.
Proof.
  intros Hs Hm Hp. unfold strtol. cbn [skip_space]. rewrite Hs, Hm, Hp. reflexivity.
Qed.

Lemma strtol_utoa (n : Z) :
  0 <= n <= LONG_MAX -> strtol (utoa n) = (n, "").
Proof.
  intros Hn. unfold utoa.
  destruct (utoa_aux_head 20 n "" ltac:(lia)) as (d & r & Hd & Hhead).
  destruct (digit_char_spec d Hd) as (_ & _ & Hs & Hm & Hp).
  destruct (scan_utoa_aux 20 n "") as (k & Hk & Hscan).
  { unfold LONG_MAX in Hn. change (10 ^ Z.of_nat 20) with 100000000000000000000. lia. }
  rewrite Hhead, strtol_unsigned by assumption. rewrite <- Hhead, Hscan.
  cbn [scan_digits Z.mul Z.add Nat.add].
  destruct k as [|k]; [lia|].
  unfold clamp_long, LONG_MAX, LONG_MIN in *.
  destruct (n >? 9223372036854775807) eqn:E1; [apply Z.gtb_lt in E1; lia|].
  destruct (n <? -9223372036854775808) eqn:E2; [apply Z.ltb_lt in E2; lia|].
  reflexivity.
Qed.

(** [strtol] reads back every [int] that the engine prints. *)
Lemma strtol_itoa (n : Z) :
  INT_MIN <= n <= INT_MAX -> strtol (itoa n) = (n, "").
Proof.
  unfold INT_MIN, INT_MAX. intros Hn. unfold itoa.
  destruct (n <? 0) eqn:Hneg.
  - apply Z.ltb_lt in Hneg. unfold utoa.
    destruct (utoa_aux_head 20 (- n) "" ltac:(lia)) as (d & r & Hd & Hhead).
    destruct (scan_utoa_aux 20 (- n) "") as (k & Hk & Hscan).
    { change (10 ^ Z.of_nat 20) with 100000000000000000000. lia. }
    unfold strtol. cbn [skip_space]. change (isspace "-") with false. cbv iota.
    change (Ascii.eqb "-" "-") with true. cbv iota.
    rewrite Hscan. cbn [scan_digits Z.mul Z.add Nat.add].
    destruct k as [|k]; [lia|].
    rewrite Z.opp_involutive.
    unfold clamp_long, LONG_MAX, LONG_MIN.
    destruct (n >? 9223372036854775807) eqn:E1; [apply Z.gtb_lt in E1; lia|].
    destruct (n <? -9223372036854775808) eqn:E2; [apply Z.ltb_lt in E2; lia|].
    reflexivity.
  - apply Z.ltb_ge in Hneg. apply strtol_utoa. unfold LONG_MAX. lia.
Qed.

Lemma int_of_long_small (n : Z) :
  INT_MIN <= n <= INT_MAX -> int_of_long n = n.
Proof.
  unfold INT_MIN, INT_MAX, int_of_long. intros Hn.
  rewrite Z.mod_small by lia. lia.
Qed.

End DecimalFacts.

Section StrtolFacts.

Lemma isspace_not_digit (c : ascii) : isspace c = true -> isdigit c = false.
Proof.
  destruct c as [[] [] [] [] [] [] [] []]; intros Hs;
    first [reflexivity | discriminate Hs].
Qed.

Lemma scan_digits_spec (s : string) :
  forall acc cnt v n rest,
  scan_digits s acc cnt = (v, n, rest) ->
  (rest =? "")%string = all_digits s
  /\ (n = cnt -> all_digits s && negb (s =? "")%string = false)
  /\ (n <> cnt -> s <> "").
Proof.
  induction s as [|c r IH]; intros acc cnt v n rest Hscan; cbn in Hscan.
  - inversion Hscan; subst. repeat split; try reflexivity. congruence.
  - cbn [all_digits]. destruct (isdigit c) eqn:Hc.
    + destruct (IH _ _ _ _ _ Hscan) as (Hrest & Hn & _).
      split; [exact Hrest|]. split; [|discriminate].
      intros ->. clear - Hscan. exfalso.
      assert (Hmono : forall s a k v m t, scan_digits s a k = (v, m, t) -> (k <= m)%nat).
      { clear. induction s as [|c r IH]; intros a k v m t Hs; cbn in Hs.
        - inversion Hs; lia.
        - destruct (isdigit c); [apply IH in Hs; lia | inversion Hs; lia]. }
      apply Hmono in Hscan. lia.
    + inversion Hscan; subst. repeat split; try reflexivity. discriminate.
Qed.

Lemma strip_sign_strtol (s : string) :
  (let '(neg, s') :=
     match s with
     | String c r =>
         if Ascii.eqb c "-" then (true, r)
         else if Ascii.eqb c "+" then (false, r) else (false, s)
     | EmptyString => (false, s)
     end in s') = strip_sign s.
Proof.
  destruct s as [|c r]; [reflexivity|]. unfold strip_sign.
  destruct (Ascii.eqb c "-"), (Ascii.eqb c "+"); reflexivity.
Qed.

(** [strtol] consumes a non-empty text to its end exactly on the integer
    texts. *)
Lemma strtol_whole (s : string) :
  (negb (s =? "") && (snd (strtol s) =? ""))%string = integer_text s.
Proof.
  unfold strtol, integer_text.
  rewrite <- (strip_sign_strtol (skip_space s)).
  destruct (match skip_space s with
            | String c r => if Ascii.eqb c "-" then (true, r)
                            else if Ascii.eqb c "+" then (false, r)
                            else (false, skip_space s)
            | EmptyString => (false, skip_space s)
            end) as [neg s'] eqn:Hsign.
  destruct (scan_digits s' 0 0) as [[v n] rest] eqn:Hscan.
  destruct (scan_digits_spec _ _ _ _ _ _ Hscan) as (Hrest & Hzero & Hpos).
  destruct n as [|n]; cbn [snd].
  - rewrite (Hzero eq_refl). destruct (s =? "")%string; reflexivity.
  - rewrite Hrest.
    assert (Hs' : s' <> "") by (apply Hpos; discriminate).
    assert (Hs : s <> "").
    { intros ->. cbn in Hsign. inversion Hsign; subst. now apply Hs'. }
    apply String.eqb_neq in Hs, Hs'. rewrite Hs, Hs'.
    cbn. now rewrite andb_true_r.
Qed.

Lemma all_digits_app_nondigit (s t : string) (c : ascii) :
  isdigit c = false -> all_digits (s ++ String c t) = false.
Proof.
  intros Hc. induction s as [|a s IH]; cbn.
  - now rewrite Hc.
  - rewrite IH. apply andb_false_r.
Qed.

Lemma skip_space_keeps_digits (s x : string) :
  has_digit s = true ->
  exists s', has_digit s' = true /\ skip_space (s ++ x) = s' ++ x.
Proof.
  induction s as [|a s IH]; intros Hd; [discriminate|].
  cbn [append skip_space]. destruct (isspace a) eqn:Hsp.
  - apply isspace_not_digit in Hsp. cbn in Hd. rewrite Hsp in Hd. now apply IH.
  - exists (String a s). split; [exact Hd | reflexivity].
Qed.

Lemma strip_sign_keeps_suffix (s x : string) :
  has_digit s = true -> exists s', strip_sign (s ++ x) = s' ++ x.
Proof.
  destruct s as [|a s]; [discriminate|]. intros _. cbn.
  destruct (Ascii.eqb a "-" || Ascii.eqb a "+")%bool.
  - now exists s.
  - now exists (String a s).
Qed.

(** A character that is not a digit, anywhere after a digit, spoils the
    text. *)
Lemma integer_text_trailing (s t : string) (c : ascii) :
  has_digit s = true -> isdigit c = false ->
  integer_text (s ++ String c t) = false.
Proof.
  intros Hs Hc. unfold integer_text.
  destruct (skip_space_keeps_digits s (String c t) Hs) as (s1 & Hs1 & ->).
  destruct (strip_sign_keeps_suffix s1 (String c t) Hs1) as (s2 & ->).
  now rewrite all_digits_app_nondigit.
Qed.

Lemma all_digits_has_digit (s : string) :
  all_digits s = true -> s <> "" -> has_digit s = true.
Proof.
  destruct s as [|c r]; [congruence|]. cbn. intros Hd _.
  apply andb_true_iff in Hd. destruct Hd as [-> _]. reflexivity.
Qed.

Lemma has_digit_skip_space (s : string) :
  has_digit (skip_space s) = true -> has_digit s = true.
Proof.
  induction s as [|c r IH]; [auto|]. cbn. destruct (isspace c).
  - intros Hr. rewrite (IH Hr). apply orb_true_r.
  - auto.
Qed.

Lemma has_digit_strip_sign (s : string) :
  has_digit (strip_sign s) = true -> has_digit s = true.
Proof.
  destruct s as [|c r]; [auto|]. cbn.
  destruct (Ascii.eqb c "-" || Ascii.eqb c "+")%bool; [|auto].
  intros ->. apply orb_true_r.
Qed.

(** No digit, no integer. *)
Lemma integer_text_has_digit (s : string) :
  integer_text s = true -> has_digit s = true.
Proof.
  unfold integer_text. intros Hi. apply andb_true_iff in Hi. destruct Hi as [Hd Hne].
  apply has_digit_skip_space, has_digit_strip_sign, all_digits_has_digit; [exact Hd|].
  apply negb_true_iff, String.eqb_neq in Hne. exact Hne.
Qed.

Lemma string_compare_refl (s : string) : String.compare s s = Eq.
Proof.
  induction s as [|c r IH]; [reflexivity|]. cbn.
  unfold Ascii.compare. now rewrite N.compare_refl.
Qed.

Lemma strcmp_zero (a b : string) : (strcmp a b =? 0) = (a =? b)%string.
Proof.
  unfold strcmp. destruct (String.eqb_spec a b) as [->|Hne].
  - now rewrite string_compare_refl.
  - destruct (String.compare a b) eqn:Hc; try reflexivity.
    apply String.compare_eq_iff in Hc. contradiction.
Qed.

End StrtolFacts.

(** * Facts about the engine *)

Section EngineFacts.

Lemma dq_body_plain (a rest : string) :
  no_dquote a = true -> starts_with_dquote rest = false ->
  dq_body (a ++ String dquote rest) = Some (a, rest).
Proof.
  intros Ha Hrest. induction a as [|c a IH].
  - cbn. destruct rest as [|c' r]; [reflexivity|].
    cbn in Hrest. now rewrite Hrest.
  - cbn in Ha. apply andb_true_iff in Ha. destruct Ha as [Hc Ha].
    apply negb_true_iff in Hc. cbn [append dq_body]. rewrite Hc, (IH Ha).
    reflexivity.
Qed.

Lemma dq_token_plain (a rest : string) :
  no_dquote a = true -> starts_with_dquote rest = false ->
  dq_token (q ++ a ++ q ++ rest) = Some (a, rest).
Proof. intros Ha Hr. cbn. now apply dq_body_plain. Qed.

Lemma dq_token_plain_end (a : string) :
  no_dquote a = true -> dq_token (q ++ a ++ q) = Some (a, "").
Proof. intros Ha. cbn. now apply (dq_body_plain a ""). Qed.

(** The texts that [sprintf] makes of the three format strings. *)
Lemma insert_text (alias abspath : string) :
  sprintf insert_query [AStr alias; AStr abspath]
  = insert_prefix ++ q ++ alias ++ q ++ ", " ++ q ++ abspath ++ q ++ ")".
Proof. reflexivity. Qed.

Lemma forsome_text (alias : string) :
  sprintf forsome_query [AStr alias] = select_prefix ++ q ++ alias ++ q.
Proof. reflexivity. Qed.

Lemma remove_text (alias : string) :
  sprintf remove_query [AStr alias] = delete_prefix ++ q ++ alias ++ q.
Proof. reflexivity. Qed.

Lemma parse_insert_prefix (r : string) :
  parse (insert_prefix ++ r) = parse_insert r.
Proof. reflexivity. Qed.

Lemma parse_select_prefix (r : string) :
  parse (select_prefix ++ r) = parse_where SSelectPaths r.
Proof. reflexivity. Qed.

Lemma parse_delete_prefix (r : string) :
  parse (delete_prefix ++ r) = parse_where SDelete r.
Proof. reflexivity. Qed.

Lemma parse_insert_plain (alias abspath : string) :
  no_dquote alias = true -> no_dquote abspath = true ->
  parse (sprintf insert_query [AStr alias; AStr abspath]) = Some (SInsert alias abspath).
Proof.
  intros Ha Hp. rewrite insert_text, parse_insert_prefix. unfold parse_insert.
  rewrite (dq_token_plain alias (", " ++ q ++ abspath ++ q ++ ")") Ha eq_refl).
  change (strip_prefix ", " (", " ++ q ++ abspath ++ q ++ ")"))
    with (Some (q ++ abspath ++ q ++ ")")).
  cbv beta iota. rewrite (dq_token_plain abspath ")" Hp eq_refl). reflexivity.
Qed.

Lemma resolve_plain (alias : string) :
  names_column alias = false -> resolve alias = Some (OText alias).
Proof.
  unfold names_column, resolve. intros Hn.
  apply orb_false_iff in Hn. destruct Hn as [Hn Hr].
  apply orb_false_iff in Hn. destruct Hn as [Ha Hp].
  now rewrite Ha, Hp, Hr.
Qed.

Lemma parse_where_plain (k : operand -> stmt) (alias : string) :
  no_dquote alias = true -> names_column alias = false ->
  parse_where k (q ++ alias ++ q) = Some (k (OText alias)).
Proof.
  intros Ha Hn. unfold parse_where.
  rewrite (dq_token_plain_end alias Ha), (resolve_plain _ Hn). reflexivity.
Qed.

Lemma parse_forsome_plain (alias : string) :
  no_dquote alias = true -> names_column alias = false ->
  parse (sprintf forsome_query [AStr alias]) = Some (SSelectPaths (OText alias)).
Proof.
  intros. rewrite forsome_text, parse_select_prefix. now apply parse_where_plain.
Qed.

Lemma parse_remove_plain (alias : string) :
  no_dquote alias = true -> names_column alias = false ->
  parse (sprintf remove_query [AStr alias]) = Some (SDelete (OText alias)).
Proof.
  intros. rewrite remove_text, parse_delete_prefix. now apply parse_where_plain.
Qed.

(** *** The UNIQUE columns *)

Lemma conflicts_false (a p : string) (rows : list row) :
  conflicts a p rows = false ->
  Forall (fun r => aliases r <> a /\ paths r <> p) rows.
Proof.
  unfold conflicts. induction rows as [|r rows IH]; cbn; intros Hc; constructor.
  - apply orb_false_iff in Hc. destruct Hc as [Hr _].
    apply orb_false_iff in Hr. destruct Hr as [Ha Hp].
    split; now apply String.eqb_neq.
  - apply IH. apply orb_false_iff in Hc. tauto.
Qed.

Lemma conflicts_true (a p : string) (rows : list row) :
  (exists r, In r rows /\ (aliases r = a \/ paths r = p)) ->
  conflicts a p rows = true.
Proof.
  intros (r & Hin & Heq). unfold conflicts. apply existsb_exists.
  exists r. split; [exact Hin|]. apply orb_true_iff.
  destruct Heq as [<- | <-]; [left | right]; apply String.eqb_refl.
Qed.

Lemma filter_none (o : string) (rows : list row) :
  Forall (fun r => aliases r <> o) rows ->
  filter (selected (OText o)) rows = [].
Proof.
  induction 1 as [|r rows Hr _ IH]; [reflexivity|].
  cbn [filter]. unfold selected at 1. cbn [eval].
  apply String.eqb_neq in Hr. now rewrite Hr.
Qed.

Lemma filter_keeps_all (o : string) (rows : list row) :
  Forall (fun r => aliases r <> o) rows ->
  filter (fun r => negb (selected (OText o) r)) rows = rows.
Proof.
  induction 1 as [|r rows Hr _ IH]; [reflexivity|].
  cbn [filter]. unfold selected at 1. cbn [eval].
  apply String.eqb_neq in Hr. rewrite Hr. cbn [negb]. now rewrite IH.
Qed.

(** *** ORDER BY *)

Lemma insert_by_alias_perm (r : row) (l : list row) :
  Permutation (insert_by_alias r l) (r :: l).
Proof.
  induction l as [|x l IH]; cbn; [reflexivity|].
  destruct (aliases r <=? aliases x)%string; [reflexivity|].
  rewrite IH. apply perm_swap.
Qed.

Lemma order_by_alias_perm (l : list row) : Permutation (order_by_alias l) l.
Proof.
  induction l as [|r l IH]; cbn; [reflexivity|].
  rewrite insert_by_alias_perm. now constructor.
Qed.

Lemma insert_by_alias_sorted (r : row) (l : list row) :
  Sorted alias_le l -> Sorted alias_le (insert_by_alias r l).
Proof.
  induction 1 as [|x l Hs IH Hhd]; cbn.
  - repeat constructor.
  - destruct (aliases r <=? aliases x)%string eqn:Hle.
    + constructor; [now constructor | now constructor].
    + assert (Hxr : alias_le x r).
      { unfold alias_le. destruct (String.leb_total (aliases r) (aliases x)); congruence. }
      constructor; [exact IH|].
      destruct l as [|y l]; cbn; [now constructor|].
      destruct (aliases r <=? aliases y)%string; constructor; [exact Hxr|].
      now inversion Hhd.
Qed.

Lemma order_by_alias_sorted (l : list row) : Sorted alias_le (order_by_alias l).
Proof.
  induction l as [|r l IH]; cbn; [constructor | now apply insert_by_alias_sorted].
Qed.

End EngineFacts.

(** * Facts about the functions of [db.c] *)

Ltac world_simpl :=
  cbn [files conns out err faults calls user realpath_of wordexp_of junk
       set_files set_conns set_out set_err set_faults set_calls set_user
       hd tl negb fst snd write_file with_db pop].

Ltac take_fault w :=
  change (fault w) with (hd false (faults w), pop w).

Section ProcessFacts.

Context {H : Type}.
Implicit Types (w : world H) (f : @db_iter_func_t H).

Lemma with_db_same w dbh d : files (with_db dbh d w) dbh = Regular (Db d).
Proof. world_simpl. now rewrite String.eqb_refl. Qed.

Lemma with_db_other w dbh d p :
  p <> dbh -> files (with_db dbh d w) p = files w p.
Proof. intros Hp. world_simpl. apply String.eqb_neq in Hp. now rewrite Hp. Qed.

Lemma with_db_id w dbh d p :
  files w dbh = Regular (Db d) -> files (with_db dbh d w) p = files w p.
Proof.
  intros Hd. world_simpl. destruct (String.eqb_spec p dbh) as [->|]; congruence.
Qed.

Lemma faults_nil_hd w : faults w = [] -> hd false (faults w) = false.
Proof. now intros ->. Qed.

Lemma faults_nil_pop w : faults w = [] -> faults (pop w) = [].
Proof. intros Hf. cbn. now rewrite Hf. Qed.

(** [sqlite3_exec] on a database file, when no failure is pending. *)
Lemma sqlite3_exec_db {C} w dbh d sql (cb : option (exec_callback C)) ctx :
  hd false (faults w) = false -> files w dbh = Regular (Db d) ->
  sqlite3_exec dbh sql cb ctx w =
    let '(rc, d', cols, rows) := Sqlite.exec sql d in
    if rc =? SQLITE_OK then
      match cb with
      | Some cb => deliver cb ctx cols rows (with_db dbh d' (pop w))
      | None => ((SQLITE_OK, ctx), with_db dbh d' (pop w))
      end
    else ((rc, ctx), with_db dbh d' (pop w)).
Proof.
  intros Hf Hd. unfold sqlite3_exec, bind. take_fault w. rewrite Hf.
  change (files (pop w) dbh) with (files w dbh). rewrite Hd. reflexivity.
Qed.

Lemma sqlite3_exec_fault {C} w dbh sql (cb : option (exec_callback C)) ctx :
  hd false (faults w) = true ->
  sqlite3_exec dbh sql cb ctx w = ((SQLITE_IOERR, ctx), pop w).
Proof. intros Hf. unfold sqlite3_exec, bind. take_fault w. now rewrite Hf. Qed.

Lemma sqlite3_exec_notadb {C} w dbh sql (cb : option (exec_callback C)) ctx :
  hd false (faults w) = false -> files w dbh = Regular NotADb ->
  sqlite3_exec dbh sql cb ctx w = ((SQLITE_NOTADB, ctx), pop w).
Proof.
  intros Hf Hd. unfold sqlite3_exec, bind. take_fault w. rewrite Hf.
  change (files (pop w) dbh) with (files w dbh). now rewrite Hd.
Qed.

(** *** Insert *)

(** The statement that the insert hands to the engine is the format string
    with the alias and the resolved path spliced in. *)
Lemma add_repo_to_db_run w dbh alias path abspath d :
  faults w = [] -> files w dbh = Regular (Db d) ->
  realpath_of w path = Some abspath ->
  add_repo_to_db dbh alias path w =
    let '(rc, d', _, _) :=
      Sqlite.exec (insert_prefix ++ q ++ alias ++ q ++ ", " ++ q ++ abspath ++ q ++ ")") d in
    (rc, with_db dbh d' (pop (pop w))).
Proof.
  intros Hf Hd Hp. unfold add_repo_to_db, malloc, realpath, bind, ret.
  take_fault w. rewrite (faults_nil_hd _ Hf). cbn [negb].
  change (realpath_of (pop w) path) with (realpath_of w path). rewrite Hp.
  rewrite (sqlite3_exec_db _ dbh d);
    [|apply faults_nil_hd, faults_nil_pop, Hf|exact Hd].
  rewrite insert_text.
  destruct (Sqlite.exec _ d) as [[[rc d'] cols] rows].
  destruct (rc =? SQLITE_OK) eqn:Hrc; [|reflexivity].
  apply Z.eqb_eq in Hrc. now subst rc.
Qed.

Lemma exec_insert_plain alias abspath d rows :
  repos_table d = Some rows ->
  no_dquote alias = true -> no_dquote abspath = true ->
  Sqlite.exec (insert_prefix ++ q ++ alias ++ q ++ ", " ++ q ++ abspath ++ q ++ ")") d
  = if conflicts alias abspath rows then failed SQLITE_CONSTRAINT d
    else (SQLITE_OK,
          mkDb (Some (rows ++ [mkRow (sequence d + 1) alias abspath])%list)
               (sequence d + 1) (schema_cookie d), [], []).
Proof.
  intros Hr Ha Hp. unfold Sqlite.exec.
  rewrite <- insert_text, (parse_insert_plain _ _ Ha Hp). cbn [run]. now rewrite Hr.
Qed.

Lemma add_repo_to_db_unresolved w dbh alias path :
  realpath_of w path = None ->
  add_repo_to_db dbh alias path w
  = (SQLITE_ERROR,
     if hd false (faults w) then pop w
     else set_err (err w ++ ["realpath"])%list (pop w)).
Proof.
  intros Hp. unfold add_repo_to_db, malloc, realpath, perror, bind, ret.
  take_fault w. destruct (hd false (faults w)); cbn [negb]; [reflexivity|].
  change (realpath_of (pop w) path) with (realpath_of w path). now rewrite Hp.
Qed.

(** *** Iteration *)

Lemma forsome_repos_run w dbh f alias d :
  faults w = [] -> files w dbh = Regular (Db d) ->
  forsome_repos dbh f alias w =
    let '(rc, d', cols, rows) := Sqlite.exec (select_prefix ++ q ++ alias ++ q) d in
    if rc =? SQLITE_OK then
      let '((rc', _), w') :=
        deliver foreach_repo_callback (mkContainer f) cols rows
                (with_db dbh d' (pop (pop w))) in (rc', w')
    else (rc, with_db dbh d' (pop (pop w))).
Proof.
  intros Hf Hd. unfold forsome_repos, malloc, bind, ret.
  take_fault w. rewrite (faults_nil_hd _ Hf). cbn [negb].
  rewrite (sqlite3_exec_db _ dbh d);
    [|apply faults_nil_hd, faults_nil_pop, Hf|exact Hd].
  rewrite forsome_text.
  destruct (Sqlite.exec _ d) as [[[rc d'] cols] rows].
  destruct (rc =? SQLITE_OK); [|reflexivity].
  destruct (deliver _ _ _ _ _) as [[rc' c'] w']. reflexivity.
Qed.

Lemma exec_select_plain alias d rows :
  repos_table d = Some rows ->
  no_dquote alias = true -> names_column alias = false ->
  Sqlite.exec (select_prefix ++ q ++ alias ++ q) d
  = (SQLITE_OK, d, ["paths"],
     map (fun r => [paths r]) (filter (selected (OText alias)) rows)).
Proof.
  intros Hr Ha Hn. unfold Sqlite.exec.
  rewrite <- forsome_text, (parse_forsome_plain _ Ha Hn). cbn [run]. now rewrite Hr.
Qed.

Lemma exec_delete_plain alias d rows :
  repos_table d = Some rows ->
  no_dquote alias = true -> names_column alias = false ->
  Sqlite.exec (delete_prefix ++ q ++ alias ++ q) d
  = (SQLITE_OK,
     mkDb (Some (filter (fun r => negb (selected (OText alias) r)) rows))
          (sequence d) (schema_cookie d), [], []).
Proof.
  intros Hr Ha Hn. unfold Sqlite.exec.
  rewrite <- remove_text, (parse_remove_plain _ Ha Hn). cbn [run]. now rewrite Hr.
Qed.

End ProcessFacts.

(** * Facts about the row callback *)

Section CallbackFacts.

Context {H : Type}.
Implicit Types (w : world H) (f : @db_iter_func_t H).

Lemma same_environment_refl w : same_environment w w.
Proof. repeat split. Qed.




Lemma invoke_spec f c v w :
  match invoke f c v w with
  | (r, w') =>
      r = fst (f c v (user w)) /\ calls w' = (calls w ++ [(c, v, r)])%list
      /\ same_environment w w'
  end.
Proof.
  unfold invoke. destruct (f c v (user w)) as [r u]. repeat split.
Qed.





(** A single result row with one column: one call. *)
Lemma deliver_single f (c v : string) w :
  deliver foreach_repo_callback (mkContainer f) [c] [[v]] w =
    let (r, w') := invoke f c v w in
    ((if r =? 0 then SQLITE_OK else SQLITE_ABORT, mkContainer f), w').
Proof.
  cbn [deliver]. unfold bind at 1. unfold foreach_repo_callback at 1.
  unfold bind at 1. cbn [callback List.length].
  change (Z.to_nat (Z.of_nat 1)) with 1%nat.
  cbn [callback_loop nth]. unfold bind, ret.
  destruct (invoke f c v w) as [r w']. cbn [Z.lor].
  destruct (r =? 0); reflexivity.
Qed.

End CallbackFacts.

(** * The registry operations *)

Section Registry.

Context {H : Type}.
Implicit Types (w : world H) (f : @db_iter_func_t H).

Lemma entries_inv w dbh rows :
  entries w dbh = Some rows ->
  exists d, files w dbh = Regular (Db d) /\ repos_table d = Some rows.
Proof.
  unfold entries. destruct (files w dbh) as [| |[|d]]; try discriminate.
  intros Hr. now exists d.
Qed.

Lemma entries_with_db w dbh d : entries (with_db dbh d w) dbh = repos_table d.
Proof. unfold entries. now rewrite with_db_same. Qed.

Lemma remove_repo_from_db_run w dbh alias d :
  faults w = [] -> files w dbh = Regular (Db d) ->
  remove_repo_from_db dbh alias w =
    let '(rc, d', _, _) := Sqlite.exec (delete_prefix ++ q ++ alias ++ q) d in
    (rc, with_db dbh d' (pop (pop w))).
Proof.
  intros Hf Hd. unfold remove_repo_from_db, malloc, bind, ret.
  take_fault w. rewrite (faults_nil_hd _ Hf). cbn [negb].
  rewrite (sqlite3_exec_db _ dbh d);
    [|apply faults_nil_hd, faults_nil_pop, Hf|exact Hd].
  rewrite remove_text.
  destruct (Sqlite.exec _ d) as [[[rc d'] cols] rows].
  destruct (rc =? SQLITE_OK) eqn:Hrc; [|reflexivity].
  apply Z.eqb_eq in Hrc. now subst rc.
Qed.

Lemma foreach_repo_run w dbh f d rows :
  faults w = [] -> files w dbh = Regular (Db d) -> repos_table d = Some rows ->
  foreach_repo dbh f w =
    let '((rc, _), w') :=
      deliver foreach_repo_callback (mkContainer f) ["aliases"; "paths"]
              (map (fun r => [aliases r; paths r]) (order_by_alias rows))
              (with_db dbh d (pop w)) in
    (if negb (rc =? SQLITE_OK) then -1 else 0, w').
Proof.
  intros Hf Hd Hr. unfold foreach_repo, bind, ret.
  rewrite (sqlite3_exec_db _ dbh d); [|apply faults_nil_hd, Hf|exact Hd].
  change (Sqlite.exec foreach_query d) with (run SSelectAll d).
  cbn [run]. rewrite Hr. cbn [Z.eqb SQLITE_OK].
  destruct (deliver _ _ _ _ _) as [[rc c] w'].
  destruct (rc =? SQLITE_OK); reflexivity.
Qed.

(** Insert, then look the alias up: the shared core of the round trip. *)
Lemma insert_roundtrip w dbh f alias path abspath d rows :
  faults w = [] -> files w dbh = Regular (Db d) -> repos_table d = Some rows ->
  realpath_of w path = Some abspath ->
  no_dquote alias = true -> names_column alias = false ->
  no_dquote abspath = true ->
  conflicts alias abspath rows = false ->
  let (s1, w1) := add_repo_to_db dbh alias path w in
  let (s2, w2) := forsome_repos dbh f alias w1 in
  let r := fst (f "paths" abspath (user w)) in
  s1 = SQLITE_OK
  /\ entries w1 dbh = Some (rows ++ [mkRow (sequence d + 1) alias abspath])%list
  /\ calls w2 = (calls w ++ [("paths", abspath, r)])%list
  /\ s2 = (if r =? 0 then SQLITE_OK else SQLITE_ABORT).
Proof.
  intros Hf Hd Hr Hp Ha Hn Hq Hc.
  rewrite (add_repo_to_db_run w dbh alias path abspath d Hf Hd Hp).
  rewrite (exec_insert_plain alias abspath d rows Hr Ha Hq), Hc.
  set (d1 := mkDb _ _ _). set (w1 := with_db dbh d1 (pop (pop w))).
  assert (Hf1 : faults w1 = []) by (cbn; now rewrite Hf).
  assert (Hd1 : files w1 dbh = Regular (Db d1)) by apply with_db_same.
  rewrite (forsome_repos_run w1 dbh f alias d1 Hf1 Hd1).
  rewrite (exec_select_plain alias d1 _ eq_refl Ha Hn).
  cbn [Z.eqb SQLITE_OK].
  rewrite filter_app, (filter_none alias rows).
  2:{ eapply Forall_impl; [|apply (conflicts_false _ _ _ Hc)]. cbn. tauto. }
  cbn [filter app]. unfold selected at 1. cbn [eval aliases].
  rewrite String.eqb_refl. cbn [map paths].
  rewrite deliver_single. unfold invoke.
  change (user (with_db dbh d1 (pop (pop w1)))) with (user w).
  destruct (f "paths" abspath (user w)) as [r u]. cbn [fst].
  split; [reflexivity|]. split; [apply entries_with_db|].
  split; reflexivity.
Qed.

End Registry.

(** * The properties of the registry *)

Section RegistryProperties.

Context {H : Type}.
Implicit Types (w : world H) (f : @db_iter_func_t H).

(** C1, as amended.  The alias and the resolved path are not bound
    parameters: the engine receives the format string with each value
    written between double-quote characters, for the insert and for the
    single-alias query alike.  When neither value contains a double quote
    and the alias does not name a column, the insert succeeds and the path
    comes back unchanged through [forsome_repos]. *)
Theorem values_are_spliced_into_the_sql_text w f dbh alias path abspath d :
  faults w = [] -> files w dbh = Regular (Db d) ->
  realpath_of w path = Some abspath ->
  add_repo_to_db dbh alias path w =
    (let '(rc, d', _, _) :=
       Sqlite.exec (insert_prefix ++ q ++ alias ++ q ++ ", " ++ q ++ abspath ++ q ++ ")") d in
     (rc, with_db dbh d' (pop (pop w))))
  /\ forsome_repos dbh f alias w =
    (let '(rc, d', cols, rows) := Sqlite.exec (select_prefix ++ q ++ alias ++ q) d in
     if rc =? SQLITE_OK then
       let '((rc', _), w') :=
         deliver foreach_repo_callback (mkContainer f) cols rows
                 (with_db dbh d' (pop (pop w))) in (rc', w')
     else (rc, with_db dbh d' (pop (pop w))))
  /\ (no_dquote alias = true -> names_column alias = false ->
      no_dquote abspath = true ->
      forall rows, repos_table d = Some rows ->
      conflicts alias abspath rows = false ->
      let (s1, w1) := add_repo_to_db dbh alias path w in
      let (s2, w2) := forsome_repos dbh f alias w1 in
      s1 = SQLITE_OK
      /\ calls w2 = (calls w ++ [("paths", abspath, fst (f "paths" abspath (user w)))])%list).
Proof.
  intros Hf Hd Hp. split; [|split].
  - now apply add_repo_to_db_run.
  - now apply forsome_repos_run.
  - intros Ha Hn Hq rows Hr Hc.
    pose proof (insert_roundtrip w dbh f alias path abspath d rows
                  Hf Hd Hr Hp Ha Hn Hq Hc) as Hrt.
    destruct (add_repo_to_db dbh alias path w) as [s1 w1].
    destruct (forsome_repos dbh f alias w1) as [s2 w2].
    cbv zeta in Hrt. tauto.
Qed.

(** C2, as amended.  For an alias without double quote that names no
    column, and a path whose resolved form has no double quote, with no
    conflicting entry: insert followed by the single-alias query calls the
    handler exactly once, with the resolved path.  When [realpath] fails the
    insert fails and the files are as before. *)
Theorem insert_then_forsome_delivers_the_resolved_path
    w f dbh alias path abspath rows :
  faults w = [] -> entries w dbh = Some rows ->
  realpath_of w path = Some abspath ->
  no_dquote alias = true -> names_column alias = false ->
  no_dquote abspath = true ->
  conflicts alias abspath rows = false ->
  (let (s1, w1) := add_repo_to_db dbh alias path w in
   let (s2, w2) := forsome_repos dbh f alias w1 in
   s1 = SQLITE_OK
   /\ exists r, calls w2 = (calls w ++ [("paths", abspath, r)])%list
                /\ r = fst (f "paths" abspath (user w))
                /\ s2 = (if r =? 0 then SQLITE_OK else SQLITE_ABORT))
  /\ (forall w0 path0, realpath_of w0 path0 = None ->
      let (s, w') := add_repo_to_db dbh alias path0 w0 in
      s = SQLITE_ERROR /\ files w' = files w0).
Proof.
  intros Hf He Hp Ha Hn Hq Hc. split.
  - destruct (entries_inv _ _ _ He) as (d & Hd & Hr).
    pose proof (insert_roundtrip w dbh f alias path abspath d rows
                  Hf Hd Hr Hp Ha Hn Hq Hc) as Hrt.
    destruct (add_repo_to_db dbh alias path w) as [s1 w1].
    destruct (forsome_repos dbh f alias w1) as [s2 w2].
    cbv zeta in Hrt. destruct Hrt as (Hs1 & _ & Hcalls & Hs2).
    split; [exact Hs1|]. eexists. split; [exact Hcalls|]. split; [reflexivity|exact Hs2].
  - intros w0 path0 Hnone. rewrite (add_repo_to_db_unresolved w0 dbh alias path0 Hnone).
    split; [reflexivity|]. destruct (hd false (faults w0)); reflexivity.
Qed.

(** C3, as amended.  With an alias and a resolved path free of double
    quotes: when the alias or the resolved path is already stored, the
    insert is refused with [SQLITE_CONSTRAINT] and every file, the table
    included, is as before. *)
Theorem duplicate_insert_is_a_constraint_violation
    w dbh alias path abspath rows :
  faults w = [] -> entries w dbh = Some rows ->
  realpath_of w path = Some abspath ->
  no_dquote alias = true -> no_dquote abspath = true ->
  (exists r, In r rows /\ (aliases r = alias \/ paths r = abspath)) ->
  let (s, w') := add_repo_to_db dbh alias path w in
  s = SQLITE_CONSTRAINT /\ entries w' dbh = Some rows
  /\ forall p, files w' p = files w p.
Proof.
  intros Hf He Hp Ha Hq Hdup.
  destruct (entries_inv _ _ _ He) as (d & Hd & Hr).
  rewrite (add_repo_to_db_run w dbh alias path abspath d Hf Hd Hp).
  rewrite (exec_insert_plain alias abspath d rows Hr Ha Hq).
  rewrite (conflicts_true _ _ _ Hdup). cbn [failed].
  split; [reflexivity|]. split.
  - now rewrite entries_with_db.
  - intros p. exact (with_db_id (pop (pop w)) dbh d p Hd).
Qed.

(** C8, as amended.  For an alias without double quote that names no
    column, removal succeeds whether or not a row matched; the rows with
    another alias stay, so a table without the alias is left as it was. *)
Theorem remove_succeeds_without_a_match w dbh alias rows :
  faults w = [] -> entries w dbh = Some rows ->
  no_dquote alias = true -> names_column alias = false ->
  let (s, w') := remove_repo_from_db dbh alias w in
  s = SQLITE_OK
  /\ entries w' dbh = Some (filter (fun r => negb (aliases r =? alias)%string) rows)
  /\ (Forall (fun r => aliases r <> alias) rows ->
      entries w' dbh = Some rows /\ forall p, files w' p = files w p).
Proof.
  intros Hf He Ha Hn.
  destruct (entries_inv _ _ _ He) as (d & Hd & Hr).
  rewrite (remove_repo_from_db_run w dbh alias d Hf Hd).
  rewrite (exec_delete_plain alias d rows Hr Ha Hn).
  split; [reflexivity|]. split; [now rewrite entries_with_db|].
  intros Hnone. rewrite (filter_keeps_all alias rows Hnone).
  split; [now rewrite entries_with_db|].
  intros p. destruct d as [t s c]. cbn in Hr. subst t.
  exact (with_db_id (pop (pop w)) dbh _ p Hd).
Qed.



Lemma schema_version_callback_spec w version argc argv col_name :
  schema_version_callback version argc argv col_name w =
    (if ((argc =? 1) && (nth 0 col_name "" =? "schema_version")%string
         && integer_text (nth 0 argv ""))%bool
     then (0, int_of_long (fst (strtol (nth 0 argv ""))))
     else (-1, -1), w).
Proof.
  unfold schema_version_callback. rewrite strcmp_zero.
  destruct (argc =? 1); [|reflexivity].
  destruct (nth 0 col_name "" =? "schema_version")%string; [|reflexivity].
  cbn [negb orb andb].
  rewrite <- (strtol_whole (nth 0 argv "")).
  destruct (strtol (nth 0 argv "")) as [val endptr]. cbn [fst snd].
  destruct (nth 0 argv "" =? "")%string, (endptr =? "")%string; reflexivity.
Qed.

(** C5.  The version callback rejects, with -1 as result and as stored
    version: a column count other than one, a column name other than
    [schema_version], the empty text, any text in which a character that is
    not a digit follows a digit, and any text without a digit.  It accepts
    exactly the integer texts. *)
Theorem schema_version_parse_is_strict w version argc argv col_name :
  let res := fst (schema_version_callback version argc argv col_name w) in
  (argc <> 1 -> res = (-1, -1))
  /\ (nth 0 col_name "" <> "schema_version" -> res = (-1, -1))
  /\ (nth 0 argv "" = "" -> res = (-1, -1))
  /\ (forall s c t, nth 0 argv "" = s ++ String c t ->
        has_digit s = true -> isdigit c = false -> res = (-1, -1))
  /\ (has_digit (nth 0 argv "") = false -> res = (-1, -1))
  /\ (fst res = 0 <->
      argc = 1 /\ nth 0 col_name "" = "schema_version"
      /\ integer_text (nth 0 argv "") = true).
Proof.
  cbv zeta. rewrite schema_version_callback_spec. cbn [fst].
  split; [|split; [|split; [|split; [|split; [|split]]]]].
  - intros Hn. apply Z.eqb_neq in Hn. now rewrite Hn.
  - intros Hn. apply String.eqb_neq in Hn. rewrite Hn. now rewrite andb_false_r.
  - intros ->. change (integer_text "") with false. now rewrite !andb_false_r.
  - intros s c t -> Hs Hc. rewrite (integer_text_trailing s t c Hs Hc).
    now rewrite !andb_false_r.
  - intros Hn. destruct (integer_text (nth 0 argv "")) eqn:Hi.
    + apply integer_text_has_digit in Hi. congruence.
    + now rewrite !andb_false_r.
  - intros Hz.
    destruct (argc =? 1) eqn:E1; [|discriminate Hz].
    destruct (nth 0 col_name "" =? "schema_version")%string eqn:E2; [|discriminate Hz].
    destruct (integer_text (nth 0 argv "")) eqn:E3; [|discriminate Hz].
    split; [now apply Z.eqb_eq|]. split; [now apply String.eqb_eq | reflexivity].
  - intros (-> & -> & ->). reflexivity.
Qed.

End RegistryProperties.

(** * Opening and creating the store *)

Section StoreHandle.

Context {H : Type}.
Implicit Types (w : world H).

Lemma itoa_nonempty (n : Z) : itoa n <> "".
Proof.
  unfold itoa. destruct (n <? 0); [discriminate|]. unfold utoa.
  destruct (utoa_aux_head 20 n "" ltac:(lia)) as (d & r & _ & ->). discriminate.
Qed.

Lemma integer_text_itoa (n : Z) :
  INT_MIN <= n <= INT_MAX -> integer_text (itoa n) = true.
Proof.
  intros Hn. rewrite <- strtol_whole, (strtol_itoa n Hn). cbn [snd].
  pose proof (itoa_nonempty n) as Hne. apply String.eqb_neq in Hne.
  now rewrite Hne.
Qed.

(** *** Reading the version *)

Lemma get_schema_version_db w dbh d :
  hd false (faults w) = false -> files w dbh = Regular (Db d) ->
  INT_MIN <= schema_cookie d <= INT_MAX ->
  get_schema_version dbh w = (schema_cookie d, with_db dbh d (pop w)).
Proof.
  intros Hf Hd Hrange. unfold get_schema_version, uninitialised, bind.
  rewrite (sqlite3_exec_db w dbh d); [|exact Hf|exact Hd].
  change (Sqlite.exec "PRAGMA schema_version" d) with (run SPragmaGet d).
  cbn [run Z.eqb SQLITE_OK deliver]. unfold bind.
  rewrite schema_version_callback_spec.
  change (Z.of_nat (List.length [itoa (schema_cookie d)])) with 1.
  cbn [nth Z.eqb Pos.eqb andb].
  change ("schema_version" =? "schema_version")%string with true. cbn [andb].
  rewrite (integer_text_itoa _ Hrange), (strtol_itoa _ Hrange). cbn [fst].
  rewrite (int_of_long_small _ Hrange). reflexivity.
Qed.

Lemma get_schema_version_fault w dbh :
  hd false (faults w) = true -> get_schema_version dbh w = (-1, pop w).
Proof.
  intros Hf. unfold get_schema_version, uninitialised, bind.
  now rewrite (sqlite3_exec_fault w dbh _ _ _ Hf).
Qed.

Lemma get_schema_version_notadb w dbh :
  hd false (faults w) = false -> files w dbh = Regular NotADb ->
  get_schema_version dbh w = (-1, pop w).
Proof.
  intros Hf Hd. unfold get_schema_version, uninitialised, bind.
  now rewrite (sqlite3_exec_notadb w dbh _ _ _ Hf Hd).
Qed.

(** *** Opening *)

Lemma sqlite3_open_v2_regular w path c :
  hd false (faults w) = false -> files w path = Regular c ->
  sqlite3_open_v2 path w = ((SQLITE_OK, path), set_conns (path :: conns w) (pop w)).
Proof.
  intros Hf Hd. unfold sqlite3_open_v2, connect, bind. take_fault w. rewrite Hf.
  change (files (set_conns (path :: conns (pop w)) (pop w)) path) with (files w path).
  now rewrite Hd.
Qed.

(** What [get_db_handle] does with an existing file once it is open. *)
Lemma get_db_handle_existing w path more c :
  wordexp_of w DB_LOCATION = Some (path :: more) ->
  files w path = Regular c -> hd false (faults w) = false ->
  get_db_handle w =
    let (v, w2) := get_schema_version path (set_conns (path :: conns w) (pop w)) in
    if negb (v =? SCHEMA_VERSION) then
      (None,
       set_conns (remove_first path (conns w2))
                 (set_out ((out w2 ++ [("Corrupt database or old schema." ++ nl)%string])
                           ++ [("DB: " ++ path ++ nl)%string])%list w2))
    else (Some path, w2).
Proof.
  intros Hw Hd Hf. unfold get_db_handle, wordexp, stat, bind. rewrite Hw, Hd.
  change (negb (0 =? 0)) with false. cbv beta iota.
  rewrite (sqlite3_open_v2_regular w path c Hf Hd).
  change (negb (SQLITE_OK =? SQLITE_OK)) with false. cbv beta iota.
  destruct (get_schema_version path _) as [v w2].
  destruct (negb (v =? SCHEMA_VERSION)); reflexivity.
Qed.

Lemma remove_first_head (x : string) (l : list string) : remove_first x (x :: l) = l.
Proof. cbn. now rewrite String.eqb_refl. Qed.

Lemma get_db_handle_refuses w path more c :
  wordexp_of w DB_LOCATION = Some (path :: more) ->
  files w path = Regular c -> hd false (faults w) = false ->
  stale c ->
  let (r, w') := get_db_handle w in
  r = None /\ conns w' = conns w /\ (forall p, files w' p = files w p)
  /\ out w' = (out w ++ refusal path)%list.
Proof.
  intros Hw Hd Hf Hstale. rewrite (get_db_handle_existing w path more c Hw Hd Hf).
  set (w1 := set_conns (path :: conns w) (pop w)).
  assert (Hd1 : files w1 path = Regular c) by exact Hd.
  assert (Hcases :
    exists v w2, get_schema_version path w1 = (v, w2) /\ v <> SCHEMA_VERSION
      /\ conns w2 = path :: conns w /\ out w2 = out w
      /\ (forall p, files w2 p = files w p)).
  { destruct (hd false (faults w1)) eqn:Hf1.
    - exists (-1), (pop w1). rewrite (get_schema_version_fault w1 path Hf1).
      repeat split. discriminate.
    - destruct c as [|d].
      + exists (-1), (pop w1). rewrite (get_schema_version_notadb w1 path Hf1 Hd1).
        repeat split. discriminate.
      + destruct Hstale as [Hrange Hne].
        exists (schema_cookie d), (with_db path d (pop w1)).
        rewrite (get_schema_version_db w1 path d Hf1 Hd1 Hrange).
        repeat split; [exact Hne|].
        intros p. exact (with_db_id (pop w1) path d p Hd1). }
  destruct Hcases as (v & w2 & -> & Hv & Hc & Ho & Hfiles).
  apply Z.eqb_neq in Hv. rewrite Hv. cbn [negb].
  cbn [conns set_conns files set_out out]. rewrite Hc, remove_first_head, Ho.
  repeat split; [exact Hfiles|]. unfold refusal. now rewrite <- app_assoc.
Qed.

(** *** Creating *)

Lemma sqlite3_open_fault w path :
  hd false (faults w) = true ->
  sqlite3_open path w = ((SQLITE_CANTOPEN, path), set_conns (path :: conns w) (pop w)).
Proof.
  intros Hf. unfold sqlite3_open, connect, bind, ret. take_fault w. now rewrite Hf.
Qed.

Lemma sqlite3_open_absent w path :
  hd false (faults w) = false -> files w path = Absent ->
  sqlite3_open path w =
    ((SQLITE_OK, path), with_db path empty_db (set_conns (path :: conns w) (pop w))).
Proof.
  intros Hf Hd. unfold sqlite3_open, connect, bind, ret. take_fault w. rewrite Hf.
  change (files (set_conns (path :: conns (pop w)) (pop w)) path) with (files w path).
  now rewrite Hd.
Qed.

(** The error exit of [create_new_db]: close, then unlink. *)
Lemma close_and_unlink w path c l :
  files w path = Regular c -> conns w = path :: l ->
  let w' := snd (unlink path (snd (sqlite3_close path w))) in
  conns w' = l /\ files w' path = Absent
  /\ (forall p, p <> path -> files w' p = files w p)
  /\ out w' = out w.
Proof.
  intros Hd Hc. unfold sqlite3_close, unlink. cbn [snd files set_conns].
  rewrite Hd. cbn [snd write_file files set_files conns out set_conns].
  rewrite Hc, remove_first_head, String.eqb_refl. repeat split.
  intros p Hp. apply String.eqb_neq in Hp. now rewrite Hp.
Qed.

End StoreHandle.

Section StoreHandleProperties.

Context {H : Type}.
Implicit Types (w : world H).

Lemma create_new_db_open_fails w path :
  hd false (faults w) = true ->
  create_new_db path w =
    (None, set_out (out w ++ [("Failed to create a new database." ++ nl)%string])%list
                   (set_conns (path :: conns w) (pop w))).
Proof.
  intros Hf. unfold create_new_db, bind. rewrite (sqlite3_open_fault w path Hf).
  reflexivity.
Qed.

Lemma create_new_db_run w path :
  files w path = Absent -> hd false (faults w) = false ->
  let w1 := with_db path empty_db (set_conns (path :: conns w) (pop w)) in
  let w2 := with_db path (mkDb (Some []) 0 1) (pop w1) in
  create_new_db path w =
    if hd false (faults w1)
    then (None, snd (unlink path (snd (sqlite3_close path (pop w1)))))
    else if hd false (faults w2)
    then (None, snd (unlink path (snd (sqlite3_close path (pop w2)))))
    else (Some path, with_db path (mkDb (Some []) 0 1) (pop w2)).
Proof.
  intros Hd Hf w1 w2. unfold create_new_db, bind.
  rewrite (sqlite3_open_absent w path Hf Hd). fold w1.
  change (negb (SQLITE_OK =? SQLITE_OK)) with false. cbv beta iota.
  destruct (hd false (faults w1)) eqn:Hf1.
  - rewrite (sqlite3_exec_fault w1 path _ _ _ Hf1).
    change (negb (SQLITE_IOERR =? SQLITE_OK)) with true. cbv beta iota.
    unfold sqlite3_close at 1. unfold ret.
    destruct (unlink path _) as [u w']. reflexivity.
  - rewrite (sqlite3_exec_db w1 path empty_db _ _ _ Hf1 (with_db_same _ _ _)).
    change (Sqlite.exec create_table_query empty_db)
      with (SQLITE_OK, mkDb (Some []) 0 1, @nil string, @nil (list string)).
    cbv beta iota. change (SQLITE_OK =? SQLITE_OK) with true. cbv beta iota.
    fold w2. change (negb (SQLITE_OK =? SQLITE_OK)) with false. cbv beta iota.
    destruct (hd false (faults w2)) eqn:Hf2.
    + rewrite (sqlite3_exec_fault w2 path _ _ _ Hf2).
      change (negb (SQLITE_IOERR =? SQLITE_OK)) with true. cbv beta iota.
      unfold sqlite3_close at 1. unfold ret.
      destruct (unlink path _) as [u w']. reflexivity.
    + rewrite (sqlite3_exec_db w2 path (mkDb (Some []) 0 1) _ _ _ Hf2 (with_db_same _ _ _)).
      change (Sqlite.exec (snprintf 128 ("PRAGMA schema_version = %u" ++ nl)
                                    [AUint SCHEMA_VERSION]) (mkDb (Some []) 0 1))
        with (SQLITE_OK, mkDb (Some []) 0 1, @nil string, @nil (list string)).
      reflexivity.
Qed.

(** C6.  An existing store whose stamped version is not [SCHEMA_VERSION]
    is refused: [get_db_handle] returns NULL, the connection it opened is
    closed again, the second line printed names the file, and no file has
    changed. *)
Theorem version_mismatch_is_refused w path more d :
  wordexp_of w DB_LOCATION = Some (path :: more) ->
  files w path = Regular (Db d) ->
  hd false (faults w) = false ->
  INT_MIN <= schema_cookie d <= INT_MAX ->
  schema_cookie d <> SCHEMA_VERSION ->
  let (r, w') := get_db_handle w in
  r = None
  /\ conns w' = conns w
  /\ (forall p, files w' p = files w p)
  /\ out w' = (out w ++ [("Corrupt database or old schema." ++ nl)%string;
                         ("DB: " ++ path ++ nl)%string])%list.
Proof.
  intros Hw Hd Hf Hrange Hne.
  exact (get_db_handle_refuses w path more (Db d) Hw Hd Hf (conj Hrange Hne)).
Qed.

(** C7, as amended.  First-time creation on an absent file.  When the
    table creation or the version stamp fails, the connection is closed and
    the file is gone again before NULL is returned.  When opening fails,
    NULL is returned after a message and no file has changed.  Without a
    failure the file holds the empty table stamped [SCHEMA_VERSION]. *)
Theorem create_new_db_cleans_up_after_a_failed_statement w path :
  files w path = Absent ->
  let (r, w') := create_new_db path w in
  let open_failed := hd false (faults w) in
  let table_failed := hd false (tl (faults w)) in
  let stamp_failed := hd false (tl (tl (faults w))) in
  (open_failed = true ->
     r = None /\ files w' = files w
     /\ out w' = (out w ++ [("Failed to create a new database." ++ nl)%string])%list)
  /\ (open_failed = false -> table_failed = true \/ stamp_failed = true ->
     r = None /\ conns w' = conns w /\ files w' path = Absent
     /\ (forall p, p <> path -> files w' p = files w p))
  /\ (open_failed = false -> table_failed = false -> stamp_failed = false ->
     r = Some path
     /\ files w' path = Regular (Db (mkDb (Some []) 0 SCHEMA_VERSION))).
Proof.
  intros Hd. destruct (hd false (faults w)) eqn:Hf.
  - rewrite (create_new_db_open_fails w path Hf). cbv zeta.
    split; [|split]; try discriminate. intros _. repeat split.
  - pose proof (create_new_db_run w path Hd Hf) as Hrun. cbv zeta in Hrun.
    rewrite Hrun. clear Hrun.
    set (w1 := with_db path empty_db (set_conns (path :: conns w) (pop w))).
    set (w2 := with_db path (mkDb (Some []) 0 1) (pop w1)).
    change (faults w1) with (tl (faults w)).
    change (faults w2) with (tl (tl (faults w))).
    assert (Hclean : forall (wx : world H) d0,
      files wx path = Regular (Db d0) -> conns wx = path :: conns w ->
      (forall p, p <> path -> files wx p = files w p) ->
      let w' := snd (unlink path (snd (sqlite3_close path wx))) in
      conns w' = conns w /\ files w' path = Absent
      /\ (forall p, p <> path -> files w' p = files w p)).
    { intros wx d0 Hx Hc Hother.
      destruct (close_and_unlink wx path (Db d0) (conns w) Hx Hc) as (A & B & C & _).
      cbv zeta. split; [exact A|]. split; [exact B|].
      intros p Hp. rewrite (C p Hp). now apply Hother. }
    assert (Ho1 : forall p, p <> path -> files (pop w1) p = files w p).
    { intros p Hp. exact (with_db_other _ path empty_db p Hp). }
    assert (Ho2 : forall p, p <> path -> files (pop w2) p = files w p).
    { intros p Hp. rewrite <- (Ho1 p Hp). exact (with_db_other _ path _ p Hp). }
    cbv zeta.
    destruct (hd false (tl (faults w))) eqn:Hf1.
    + split; [discriminate|]. split; [|discriminate].
      intros _ _. split; [reflexivity|].
      apply (Hclean (pop w1) empty_db); [apply with_db_same|reflexivity|exact Ho1].
    + destruct (hd false (tl (tl (faults w)))) eqn:Hf2.
      * split; [discriminate|]. split; [|discriminate].
        intros _ _. split; [reflexivity|].
        apply (Hclean (pop w2) (mkDb (Some []) 0 1));
          [apply with_db_same|reflexivity|exact Ho2].
      * split; [discriminate|]. split; [intros _ [?|?]; discriminate|].
        intros _ _ _. split; [reflexivity|]. apply with_db_same.
Qed.

(** C10.  [get_schema_version] answers -1 when the callback rejects the
    row, when the statement fails and when the stamp is -1 itself; at
    [get_db_handle] a store stamped -1 and an unreadable file give the same
    refusal, since -1 is not [SCHEMA_VERSION]. *)
Theorem minus_one_is_the_only_error_value w path more d :
  wordexp_of w DB_LOCATION = Some (path :: more) ->
  hd false (faults w) = false ->
  schema_cookie d = -1 ->
  (forall w0 version argc argv col_name,
     fst (fst (schema_version_callback version argc argv col_name w0)) <> 0 ->
     fst (schema_version_callback version argc argv col_name w0) = (-1, -1))
  /\ (forall w0 dbh,
        hd false (faults w0) = true \/ files w0 dbh = Regular NotADb ->
        fst (get_schema_version dbh w0) = -1)
  /\ (forall w0 dbh,
        hd false (faults w0) = false -> files w0 dbh = Regular (Db d) ->
        fst (get_schema_version dbh w0) = -1)
  /\ (let (r1, w1) := get_db_handle (with_db path d w) in
      let (r2, w2) := get_db_handle (snd (write_file path (Regular NotADb) w)) in
      r1 = None /\ r2 = None /\ out w1 = out w2 /\ conns w1 = conns w2
      /\ conns w1 = conns w)
  /\ -1 <> SCHEMA_VERSION.
Proof.
  intros Hw Hf Hcookie.
  assert (Hrange : INT_MIN <= schema_cookie d <= INT_MAX)
    by (rewrite Hcookie; unfold INT_MIN, INT_MAX; lia).
  split; [|split; [|split; [|split]]].
  - intros w0 version argc argv col_name. rewrite schema_version_callback_spec.
    cbn [fst]. destruct (_ && _)%bool; [intros Hz; now contradiction Hz | reflexivity].
  - intros w0 dbh Hcase. destruct (hd false (faults w0)) eqn:Hf0.
    + now rewrite (get_schema_version_fault w0 dbh Hf0).
    + destruct Hcase as [Hc|Hc]; [discriminate|].
      now rewrite (get_schema_version_notadb w0 dbh Hf0 Hc).
  - intros w0 dbh Hf0 Hd0.
    rewrite (get_schema_version_db w0 dbh d Hf0 Hd0 Hrange). exact Hcookie.
  - pose proof (get_db_handle_refuses (with_db path d w) path more (Db d)
                  Hw (with_db_same _ _ _) Hf) as H1.
    pose proof (get_db_handle_refuses (snd (write_file path (Regular NotADb) w))
                  path more NotADb Hw) as H2.
    destruct (get_db_handle (with_db path d w)) as [r1 w1].
    destruct (get_db_handle (snd (write_file path (Regular NotADb) w))) as [r2 w2].
    destruct H1 as (-> & Hc1 & _ & Ho1).
    { split; [exact Hrange|]. rewrite Hcookie. discriminate. }
    destruct H2 as (-> & Hc2 & _ & Ho2).
    { cbn. now rewrite String.eqb_refl. }
    { exact Hf. }
    { exact I. }
    repeat split; [rewrite Ho1, Ho2 | rewrite Hc1, Hc2 | exact Hc1]; reflexivity.
  - discriminate.
Qed.

End StoreHandleProperties.

(** * Further properties: outcomes of the registry operations *)

Section Outcomes.

Context {H : Type}.
Implicit Types (w : world H) (f : @db_iter_func_t H).

Lemma sqlite3_exec_unreachable {C} w dbh sql (cb : option (exec_callback C)) ctx :
  hd false (faults w) = false ->
  files w dbh = Absent \/ files w dbh = Inaccessible ->
  sqlite3_exec dbh sql cb ctx w = ((SQLITE_CANTOPEN, ctx), pop w).
Proof.
  intros Hf Hd. unfold sqlite3_exec, bind. take_fault w. rewrite Hf.
  change (files (pop w) dbh) with (files w dbh).
  destruct Hd as [-> | ->]; reflexivity.
Qed.

(** Whatever is pending, a statement without callback either runs or
    leaves every file as it was. *)
Lemma sqlite3_exec_outcome w dbh sql :
  match sqlite3_exec dbh sql None tt w with
  | ((rc, _), w') =>
      (exists d, hd false (faults w) = false /\ files w dbh = Regular (Db d)
                 /\ rc = fst (fst (fst (Sqlite.exec sql d)))
                 /\ w' = with_db dbh (snd (fst (fst (Sqlite.exec sql d)))) (pop w))
      \/ (rc <> SQLITE_OK /\ w' = pop w)
  end.
Proof.
  destruct (hd false (faults w)) eqn:Hf.
  - rewrite (sqlite3_exec_fault w dbh _ _ _ Hf). right. split; [discriminate | reflexivity].
  - destruct (files w dbh) as [| |[|d]] eqn:Hd.
    + rewrite (sqlite3_exec_unreachable w dbh _ _ _ Hf (or_introl Hd)).
      right. split; [discriminate | reflexivity].
    + rewrite (sqlite3_exec_unreachable w dbh _ _ _ Hf (or_intror Hd)).
      right. split; [discriminate | reflexivity].
    + rewrite (sqlite3_exec_notadb w dbh _ _ _ Hf Hd).
      right. split; [discriminate | reflexivity].
    + rewrite (sqlite3_exec_db w dbh d _ _ _ Hf Hd).
      destruct (Sqlite.exec sql d) as [[[rc d'] cols] rows] eqn:Hex. cbn [fst snd].
      destruct (rc =? SQLITE_OK) eqn:Hrc.
      * apply Z.eqb_eq in Hrc. subst rc. left. exists d.
        unfold Sqlite.exec in Hex |- *. rewrite Hex. repeat split.
      * left. exists d. unfold Sqlite.exec in Hex |- *. rewrite Hex. repeat split.
Qed.

Lemma exec_insert_run alias abspath d :
  no_dquote alias = true -> no_dquote abspath = true ->
  Sqlite.exec (sprintf insert_query [AStr alias; AStr abspath]) d
  = run (SInsert alias abspath) d.
Proof. intros Ha Hp. unfold Sqlite.exec. now rewrite (parse_insert_plain _ _ Ha Hp). Qed.


Lemma pop_files w p : files (pop w) p = files w p.
Proof. reflexivity. Qed.

(** The insert, whatever is pending and whatever the file holds. *)
Lemma add_repo_to_db_outcome w dbh alias path :
  no_dquote alias = true ->
  (forall abspath, realpath_of w path = Some abspath -> no_dquote abspath = true) ->
  let (s, w') := add_repo_to_db dbh alias path w in
  (s = SQLITE_OK
   /\ exists rows abspath i,
        realpath_of w path = Some abspath /\ entries w dbh = Some rows
        /\ conflicts alias abspath rows = false
        /\ entries w' dbh = Some (rows ++ [mkRow i alias abspath])%list
        /\ forall p, p <> dbh -> files w' p = files w p)
  \/ (s <> SQLITE_OK /\ forall p, files w' p = files w p).
Proof.
  intros Ha Hq. unfold add_repo_to_db, malloc, realpath, perror, bind, ret.
  take_fault w. destruct (hd false (faults w)) eqn:Hm; cbn [negb].
  { right. split; [discriminate | reflexivity]. }
  change (realpath_of (pop w) path) with (realpath_of w path).
  destruct (realpath_of w path) as [abspath|] eqn:Hp.
  2:{ right. split; [discriminate | reflexivity]. }
  specialize (Hq abspath eq_refl).
  pose proof (sqlite3_exec_outcome (pop w) dbh
                (sprintf insert_query [AStr alias; AStr abspath])) as Hex.
  destruct (sqlite3_exec dbh _ None tt (pop w)) as [[rc u] w'].
  destruct Hex as [(d & Hf & Hd & Hrc & Hw) | (Hrc & Hw)].
  2:{ right. split; [exact Hrc|]. subst w'. reflexivity. }
  rewrite (exec_insert_run alias abspath d Ha Hq) in Hrc, Hw.
  change (files (pop w) dbh) with (files w dbh) in Hd.
  cbn [run] in Hrc, Hw. destruct (repos_table d) as [rows|] eqn:Hr.
  2:{ right. cbn in Hrc, Hw. subst. split; [discriminate|].
      intros p. exact (with_db_id (pop (pop w)) dbh d p Hd). }
  destruct (conflicts alias abspath rows) eqn:Hc.
  { right. cbn in Hrc, Hw. subst. split; [discriminate|].
    intros p. exact (with_db_id (pop (pop w)) dbh d p Hd). }
  left. cbn in Hrc, Hw. subst. split; [reflexivity|].
  exists rows, abspath, (sequence d + 1). split; [reflexivity|].
  split; [unfold entries; now rewrite Hd|]. split; [exact Hc|].
  split; [exact (entries_with_db (pop (pop w)) dbh _)|].
  intros p Hne. exact (with_db_other (pop (pop w)) dbh _ p Hne).
Qed.


(** X1.  An insert of quote-free values is all or nothing: either it
    returns [SQLITE_OK] and the table is the old one with exactly one row
    appended, holding the alias and the resolved path, or it returns an
    error and every file is as before.  This holds whatever is pending
    (allocation or engine failure) and whatever the store file holds. *)
Theorem add_repo_to_db_is_all_or_nothing w dbh alias path :
  no_dquote alias = true ->
  (forall abspath, realpath_of w path = Some abspath -> no_dquote abspath = true) ->
  let (s, w') := add_repo_to_db dbh alias path w in
  (s = SQLITE_OK
   /\ exists rows abspath i,
        realpath_of w path = Some abspath /\ entries w dbh = Some rows
        /\ conflicts alias abspath rows = false
        /\ entries w' dbh = Some (rows ++ [mkRow i alias abspath])%list
        /\ forall p, p <> dbh -> files w' p = files w p)
  \/ (s <> SQLITE_OK /\ forall p, files w' p = files w p).
Proof. exact (add_repo_to_db_outcome w dbh alias path). Qed.





End Outcomes.

(** * Further properties: lookups and compositions *)

Section Compositions.

Context {H : Type}.
Implicit Types (w : world H) (f : @db_iter_func_t H).

Lemma forsome_repos_plain w dbh f alias d rows :
  faults w = [] -> files w dbh = Regular (Db d) -> repos_table d = Some rows ->
  no_dquote alias = true -> names_column alias = false ->
  forsome_repos dbh f alias w =
    let '((rc, _), w') :=
      deliver foreach_repo_callback (mkContainer f) ["paths"]
              (map (fun r => [paths r]) (filter (selected (OText alias)) rows))
              (with_db dbh d (pop (pop w))) in
    (rc, w').
Proof.
  intros Hf Hd Hr Ha Hn. rewrite (forsome_repos_run w dbh f alias d Hf Hd).
  rewrite (exec_select_plain alias d rows Hr Ha Hn). reflexivity.
Qed.



(** X3.  Looking up an alias that no entry has (quote-free, not a column
    name) is a success without any handler call, and changes no file: zero
    calls is how a caller sees that the alias is unknown. *)
Theorem forsome_repos_unknown_alias_calls_nothing w f dbh alias rows :
  faults w = [] -> entries w dbh = Some rows ->
  no_dquote alias = true -> names_column alias = false ->
  Forall (fun r => aliases r <> alias) rows ->
  let (s, w') := forsome_repos dbh f alias w in
  s = SQLITE_OK /\ calls w' = calls w /\ forall p, files w' p = files w p.
Proof.
  intros Hf He Ha Hn Hnone. destruct (entries_inv _ _ _ He) as (d & Hd & Hr).
  rewrite (forsome_repos_plain w dbh f alias d rows Hf Hd Hr Ha Hn).
  rewrite (filter_none alias rows Hnone). cbn [map deliver]. unfold ret.
  split; [reflexivity|]. split; [reflexivity|].
  intros p. exact (with_db_id (pop (pop w)) dbh d p Hd).
Qed.





(** X8.  A failing handler stops the listing at the first row: with a
    handler that always returns non-zero and a table that is not empty,
    [foreach_repo] returns -1 after exactly two calls, the two columns of
    the row that comes first in alias order. *)
Theorem foreach_repo_stops_after_the_first_failing_row w f dbh rows :
  faults w = [] -> entries w dbh = Some rows -> rows <> [] ->
  (forall c v u, fst (f c v u) <> 0) ->
  let (s, w') := foreach_repo dbh f w in
  s = -1
  /\ exists first rest r1 r2,
       Permutation (first :: rest) rows /\ Sorted alias_le (first :: rest)
       /\ calls w' = (calls w ++ [("aliases", aliases first, r1);
                                  ("paths", paths first, r2)])%list.
Proof.
  intros Hf He Hne Hfail. destruct (entries_inv _ _ _ He) as (d & Hd & Hr).
  rewrite (foreach_repo_run w dbh f d rows Hf Hd Hr).
  pose proof (order_by_alias_perm rows) as Hperm.
  pose proof (order_by_alias_sorted rows) as Hsorted.
  destruct (order_by_alias rows) as [|first rest].
  { apply Permutation_nil in Hperm. congruence. }
  cbn [map deliver]. unfold bind at 1. unfold foreach_repo_callback at 1.
  unfold bind at 1. cbn [callback List.length].
  change (Z.to_nat (Z.of_nat 2)) with 2%nat.
  cbn [callback_loop nth]. unfold bind, ret.
  pose proof (invoke_spec f "aliases" (aliases first) (with_db dbh d (pop w))) as H1.
  destruct (invoke f "aliases" (aliases first) (with_db dbh d (pop w))) as [r1 w1].
  destruct H1 as (Hr1 & Hc1 & _).
  pose proof (invoke_spec f "paths" (paths first) w1) as H2.
  destruct (invoke f "paths" (paths first) w1) as [r2 w2].
  destruct H2 as (_ & Hc2 & _).
  assert (Hnz : Z.lor (Z.lor 0 r1) r2 <> 0).
  { intros Hz. apply Z.lor_eq_0_iff in Hz. destruct Hz as [Hz _].
    cbn in Hz. rewrite Hz in Hr1. symmetry in Hr1. exact (Hfail _ _ _ Hr1). }
  apply Z.eqb_neq in Hnz. rewrite Hnz. cbn.
  split; [reflexivity|]. exists first, rest, r1, r2.
  split; [exact Hperm|]. split; [exact Hsorted|].
  rewrite Hc2, Hc1, <- app_assoc. reflexivity.
Qed.

(** X9.  When the listing statement itself cannot run (a pending engine
    failure, or a file without the table: missing, unreadable, not a
    database, or a database never initialised), [foreach_repo] returns -1,
    the handler is not called and no file changes. *)
Theorem foreach_repo_fails_without_calling_the_handler w f dbh :
  hd false (faults w) = true \/ entries w dbh = None ->
  let (s, w') := foreach_repo dbh f w in
  s = -1 /\ calls w' = calls w /\ forall p, files w' p = files w p.
Proof.
  intros Hcase. unfold foreach_repo, bind, ret.
  destruct (hd false (faults w)) eqn:Hf.
  { rewrite (sqlite3_exec_fault w dbh _ _ _ Hf). cbn. repeat split. }
  destruct Hcase as [Hc|He]; [discriminate|].
  unfold entries in He. destruct (files w dbh) as [| |[|d]] eqn:Hd.
  - rewrite (sqlite3_exec_unreachable w dbh _ _ _ Hf (or_introl Hd)). cbn. repeat split.
  - rewrite (sqlite3_exec_unreachable w dbh _ _ _ Hf (or_intror Hd)). cbn. repeat split.
  - rewrite (sqlite3_exec_notadb w dbh _ _ _ Hf Hd). cbn. repeat split.
  - rewrite (sqlite3_exec_db w dbh d _ _ _ Hf Hd).
    change (Sqlite.exec foreach_query d) with (run SSelectAll d).
    cbn [run]. rewrite He. cbn. split; [reflexivity|]. split; [reflexivity|].
    intros p. rewrite <- Hd. destruct (String.eqb_spec p dbh) as [->|]; reflexivity.
Qed.

End Compositions.

(** * Further properties: the store handle *)

Section HandleOutcomes.

Context {H : Type}.
Implicit Types (w : world H).

(** Reading the version changes nothing but the pending failures. *)
Lemma get_schema_version_frame w dbh :
  let (v, w') := get_schema_version dbh w in
  (forall p, files w' p = files w p) /\ conns w' = conns w /\ out w' = out w
  /\ faults w' = tl (faults w).
Proof.
  destruct (hd false (faults w)) eqn:Hf.
  { rewrite (get_schema_version_fault w dbh Hf). repeat split. }
  destruct (files w dbh) as [| |[|d]] eqn:Hd.
  - unfold get_schema_version, uninitialised, bind.
    rewrite (sqlite3_exec_unreachable w dbh _ _ _ Hf (or_introl Hd)). repeat split.
  - unfold get_schema_version, uninitialised, bind.
    rewrite (sqlite3_exec_unreachable w dbh _ _ _ Hf (or_intror Hd)). repeat split.
  - rewrite (get_schema_version_notadb w dbh Hf Hd). repeat split.
  - unfold get_schema_version, uninitialised, bind.
    rewrite (sqlite3_exec_db w dbh d _ _ _ Hf Hd).
    change (Sqlite.exec "PRAGMA schema_version" d) with (run SPragmaGet d).
    cbn [run Z.eqb SQLITE_OK deliver]. unfold bind.
    rewrite schema_version_callback_spec.
    destruct (_ && _)%bool; cbn; (split; [|repeat split]);
      intros p; exact (with_db_id (pop w) dbh d p Hd).
Qed.

(** X10.  [get_schema_version] reads back the stamp: for a database file
    whose stamp is any 32-bit value it returns exactly that value, through
    the decimal text of the engine and [strtol], and it changes no file, no
    connection and no output. *)
Theorem get_schema_version_returns_the_stamp w dbh d :
  hd false (faults w) = false -> files w dbh = Regular (Db d) ->
  INT_MIN <= schema_cookie d <= INT_MAX ->
  let (v, w') := get_schema_version dbh w in
  v = schema_cookie d
  /\ (forall p, files w' p = files w p) /\ conns w' = conns w /\ out w' = out w.
Proof.
  intros Hf Hd Hrange. rewrite (get_schema_version_db w dbh d Hf Hd Hrange).
  split; [reflexivity|]. split; [|split; reflexivity].
  intros p. exact (with_db_id (pop w) dbh d p Hd).
Qed.

Lemma sqlite3_open_v2_fault w path :
  hd false (faults w) = true ->
  sqlite3_open_v2 path w
  = ((SQLITE_CANTOPEN, path), set_conns (path :: conns w) (pop w)).
Proof.
  intros Hf. unfold sqlite3_open_v2, connect, bind, ret. take_fault w. now rewrite Hf.
Qed.

Lemma get_db_handle_open_fails w path more c :
  wordexp_of w DB_LOCATION = Some (path :: more) ->
  files w path = Regular c -> hd false (faults w) = true ->
  get_db_handle w = (None, set_conns (path :: conns w) (pop w)).
Proof.
  intros Hw Hd Hf. unfold get_db_handle, wordexp, stat, bind. rewrite Hw, Hd.
  change (negb (0 =? 0)) with false. cbv beta iota.
  rewrite (sqlite3_open_v2_fault w path Hf). reflexivity.
Qed.

Lemma get_db_handle_inaccessible w path more :
  wordexp_of w DB_LOCATION = Some (path :: more) ->
  files w path = Inaccessible ->
  get_db_handle w = (None, set_err (err w ++ ["stat"])%list w).
Proof.
  intros Hw Hd. unfold get_db_handle, wordexp, stat, bind. rewrite Hw, Hd. reflexivity.
Qed.

Lemma get_db_handle_absent w path more :
  wordexp_of w DB_LOCATION = Some (path :: more) ->
  files w path = Absent ->
  get_db_handle w = create_new_db path w.
Proof.
  intros Hw Hd. unfold get_db_handle, wordexp, stat, bind. rewrite Hw, Hd. reflexivity.
Qed.

(** X11.  An existing store stamped [SCHEMA_VERSION] is accepted: with no
    failure pending, [get_db_handle] returns the handle, leaves exactly that
    one connection open, prints nothing and changes no file. *)
Theorem get_db_handle_accepts_the_current_version w path more d :
  wordexp_of w DB_LOCATION = Some (path :: more) ->
  files w path = Regular (Db d) ->
  schema_cookie d = SCHEMA_VERSION ->
  hd false (faults w) = false -> hd false (tl (faults w)) = false ->
  let (r, w') := get_db_handle w in
  r = Some path /\ conns w' = path :: conns w /\ out w' = out w
  /\ err w' = err w /\ forall p, files w' p = files w p.
Proof.
  intros Hw Hd Hv Hf Hf2.
  rewrite (get_db_handle_existing w path more (Db d) Hw Hd Hf).
  set (w1 := set_conns (path :: conns w) (pop w)).
  assert (Hrange : INT_MIN <= schema_cookie d <= INT_MAX)
    by (rewrite Hv; unfold INT_MIN, INT_MAX, SCHEMA_VERSION; lia).
  rewrite (get_schema_version_db w1 path d Hf2 Hd Hrange). rewrite Hv.
  change (negb (SCHEMA_VERSION =? SCHEMA_VERSION)) with false. cbv iota.
  repeat split. intros p. exact (with_db_id (pop w1) path d p Hd).
Qed.

(** X12.  [get_db_handle] creates or changes a file only when [stat]
    reports that none exists: when the path names a file, readable or not,
    every file is afterwards as before, whatever fails.  And a handle is
    returned only for a database stamped [SCHEMA_VERSION]. *)
Theorem get_db_handle_touches_no_existing_file w path more :
  wordexp_of w DB_LOCATION = Some (path :: more) ->
  files w path <> Absent ->
  (forall d, files w path = Regular (Db d) ->
             INT_MIN <= schema_cookie d <= INT_MAX) ->
  let (r, w') := get_db_handle w in
  (forall p, files w' p = files w p)
  /\ (forall dbh, r = Some dbh ->
        dbh = path
        /\ exists d, files w path = Regular (Db d) /\ schema_cookie d = SCHEMA_VERSION).
Proof.
  intros Hw Hd Hrange. destruct (files w path) as [| |c] eqn:Hfile; [congruence| |].
  { rewrite (get_db_handle_inaccessible w path more Hw Hfile).
    split; [reflexivity | discriminate]. }
  destruct (hd false (faults w)) eqn:Hf.
  { rewrite (get_db_handle_open_fails w path more c Hw Hfile Hf).
    split; [reflexivity | discriminate]. }
  rewrite (get_db_handle_existing w path more c Hw Hfile Hf).
  set (w1 := set_conns (path :: conns w) (pop w)).
  pose proof (get_schema_version_frame w1 path) as Hframe.
  assert (Hv : forall v w2, get_schema_version path w1 = (v, w2) ->
                 v = SCHEMA_VERSION ->
                 exists d, c = Db d /\ schema_cookie d = SCHEMA_VERSION).
  { intros v w2 Hget ->. destruct (hd false (faults w1)) eqn:Hf1.
    - rewrite (get_schema_version_fault w1 path Hf1) in Hget. discriminate.
    - destruct c as [|d].
      + rewrite (get_schema_version_notadb w1 path Hf1 Hfile) in Hget. discriminate.
      + rewrite (get_schema_version_db w1 path d Hf1 Hfile (Hrange d eq_refl)) in Hget.
        exists d. split; [reflexivity|]. now inversion Hget. }
  destruct (get_schema_version path w1) as [v w2].
  destruct Hframe as (Hfiles & _).
  destruct (v =? SCHEMA_VERSION) eqn:Heq; cbn [negb].
  - split; [exact Hfiles|]. intros dbh Hsome. inversion Hsome; subst dbh.
    split; [reflexivity|]. apply Z.eqb_eq in Heq.
    destruct (Hv v w2 eq_refl Heq) as (d & -> & Hc). now exists d.
  - split; [exact Hfiles | discriminate].
Qed.

(** X13.  Creating, closing and reopening: on an absent file, with no
    failure pending, [get_db_handle] returns a handle to a store with an
    empty table; after [close_db_handle] no connection is left open, a
    second [get_db_handle] returns a handle again, and
    [get_schema_version] reports [SCHEMA_VERSION] both times. *)
Theorem create_close_reopen w path more :
  wordexp_of w DB_LOCATION = Some (path :: more) ->
  files w path = Absent -> faults w = [] ->
  let (r1, w1) := get_db_handle w in
  let (v1, _) := get_schema_version path w1 in
  let (_, w2) := close_db_handle path w1 in
  let (r2, w3) := get_db_handle w2 in
  let (v2, _) := get_schema_version path w3 in
  r1 = Some path /\ r2 = Some path
  /\ v1 = SCHEMA_VERSION /\ v2 = SCHEMA_VERSION
  /\ conns w2 = conns w /\ entries w3 path = Some [] /\ out w3 = out w.
Proof.
  intros Hw Hd Hf.
  assert (Hf0 : hd false (faults w) = false) by now rewrite Hf.
  rewrite (get_db_handle_absent w path more Hw Hd).
  pose proof (create_new_db_run w path Hd Hf0) as Hrun. cbv zeta in Hrun.
  rewrite Hrun. clear Hrun.
  set (wa := with_db path empty_db (set_conns (path :: conns w) (pop w))).
  set (db1 := mkDb (Some []) 0 1).
  set (wb := with_db path db1 (pop wa)).
  assert (Hfa : faults wa = []) by (cbn; now rewrite Hf).
  assert (Hfb : faults wb = []) by (cbn; now rewrite Hf).
  rewrite Hfa, Hfb. cbn [hd].
  set (w1 := with_db path db1 (pop wb)).
  assert (Hf1 : faults w1 = []) by (cbn; now rewrite Hf).
  assert (Hrange : INT_MIN <= schema_cookie db1 <= INT_MAX)
    by (cbn; unfold INT_MIN, INT_MAX; lia).
  rewrite (get_schema_version_db w1 path db1 (faults_nil_hd _ Hf1)
             (with_db_same _ _ _) Hrange).
  unfold close_db_handle, sqlite3_close.
  change (conns w1) with (path :: conns w). rewrite remove_first_head.
  set (w2 := set_conns (conns w) w1).
  assert (Hf2 : faults w2 = []) by exact Hf1.
  assert (Hd2 : files w2 path = Regular (Db db1)) by apply (with_db_same (pop wb)).
  rewrite (get_db_handle_existing w2 path more (Db db1) Hw Hd2 (faults_nil_hd _ Hf2)).
  set (w2' := set_conns (path :: conns w2) (pop w2)).
  assert (Hf2' : faults w2' = []) by (cbn; now rewrite Hf).
  rewrite (get_schema_version_db w2' path db1 (faults_nil_hd _ Hf2') Hd2 Hrange).
  change (negb (schema_cookie db1 =? SCHEMA_VERSION)) with false. cbv iota.
  set (w3 := with_db path db1 (pop w2')).
  assert (Hf3 : faults w3 = []) by (cbn; now rewrite Hf).
  rewrite (get_schema_version_db w3 path db1 (faults_nil_hd _ Hf3)
             (with_db_same _ _ _) Hrange).
  repeat split. exact (entries_with_db (pop w2') path db1).
Qed.

End HandleOutcomes.

(** * Further properties: texts, bounds and quoting *)

Section TextOutcomes.

Context {H : Type}.
Implicit Types (w : world H) (f : @db_iter_func_t H).

Lemma strtol_utoa_clamped (n : Z) :
  0 <= n < 10 ^ 20 -> strtol (utoa n) = (clamp_long n, "").
Proof.
  intros Hn. unfold utoa.
  destruct (utoa_aux_head 20 n "" ltac:(lia)) as (d & r & Hd & Hhead).
  destruct (digit_char_spec d Hd) as (_ & _ & Hs & Hm & Hp).
  destruct (scan_utoa_aux 20 n "") as (k & Hk & Hscan).
  { change (Z.of_nat 20) with 20. exact Hn. }
  rewrite Hhead, strtol_unsigned by assumption. rewrite <- Hhead, Hscan.
  cbn [scan_digits Z.mul Z.add Nat.add].
  destruct k as [|k]; [lia|]. reflexivity.
Qed.

Lemma utoa_nonempty (n : Z) : utoa n <> "".
Proof.
  unfold utoa. destruct (utoa_aux_head 20 n "" ltac:(lia)) as (d & r & _ & ->).
  discriminate.
Qed.

(** X14.  The version callback does not check the range of the number: a
    decimal text of up to twenty digits is accepted even when its value
    does not fit an [int]; what is stored is the value cut to [long] by
    [strtol] and then to its low 32 bits.  So the text 4294967297 reads as
    version 1. *)
Theorem schema_version_callback_wraps_large_numbers w version n :
  0 <= n < 10 ^ 20 ->
  schema_version_callback version 1 [utoa n] ["schema_version"] w
  = ((0, int_of_long (clamp_long n)), w).
Proof.
  intros Hn. rewrite schema_version_callback_spec. cbn [nth].
  change (1 =? 1) with true. change ("schema_version" =? "schema_version")%string with true.
  cbn [andb].
  assert (Hi : integer_text (utoa n) = true).
  { rewrite <- strtol_whole, (strtol_utoa_clamped n Hn). cbn [snd].
    pose proof (utoa_nonempty n) as Hne. apply String.eqb_neq in Hne. now rewrite Hne. }
  rewrite Hi, (strtol_utoa_clamped n Hn). reflexivity.
Qed.

Lemma strlen_app (a b : string) : strlen (a ++ b) = strlen a + strlen b.
Proof.
  unfold strlen. rewrite <- Nat2Z.inj_add. f_equal.
  induction a as [|c a IH]; cbn; [reflexivity | now rewrite IH].
Qed.

Lemma strlen_nonneg (a : string) : 0 <= strlen a.
Proof. unfold strlen. lia. Qed.

(** X15.  The statement always fits the buffer allocated for it: counting
    the terminating NUL, the text that [sprintf] writes is one byte shorter
    than the allocation in [forsome_repos] and in [remove_repo_from_db],
    and fits the allocation of [add_repo_to_db] for every resolved path
    shorter than [PATH_MAX]. *)
Theorem formatted_queries_fit_their_buffers (alias abspath : string) :
  strlen (sprintf forsome_query [AStr alias]) + 1
    = strlen forsome_query + strlen alias - 1
  /\ strlen (sprintf remove_query [AStr alias]) + 1
    = strlen remove_query + strlen alias - 1
  /\ (strlen abspath < PATH_MAX ->
      strlen (sprintf insert_query [AStr alias; AStr abspath]) + 1
        <= strlen insert_query + PATH_MAX + strlen alias + 1).
Proof.
  rewrite forsome_text, remove_text, insert_text. rewrite !strlen_app.
  change (strlen forsome_query) with 48. change (strlen remove_query) with 42.
  change (strlen insert_query) with 59. change (strlen select_prefix) with 44.
  change (strlen delete_prefix) with 38. change (strlen insert_prefix) with 48.
  change (strlen q) with 1. change (strlen ", ") with 2. change (strlen ")") with 1.
  unfold PATH_MAX. pose proof (strlen_nonneg alias). pose proof (strlen_nonneg abspath).
  repeat split; lia.
Qed.






End TextOutcomes.

(** * Concrete instances *)

Import Sample.

Example sprintf_two :
  sprintf "a=%s b=%s." [AStr "x"; AStr "yy"] = "a=x b=yy.".
Proof. reflexivity. Qed.

Example strtol_samples :
  strtol "12" = (12, "") /\ strtol " -7x" = (-7, "x") /\ strtol "abc" = (0, "abc")
  /\ strtol "" = (0, "") /\ strtol "-" = (0, "-")
  /\ strtol (itoa (-2147483648)) = (-2147483648, "").
Proof. repeat split; reflexivity. Qed.

Example listing_of_b_a_c :
  let w := snd ((add_repo_to_db store "b" "b" ;; add_repo_to_db store "a" "a" ;;
                 add_repo_to_db store "c" "c" ;; foreach_repo store accept) fresh) in
  calls w = [("aliases", "a", 0); ("paths", "/repos/a", 0);
             ("aliases", "b", 0); ("paths", "/repos/b", 0);
             ("aliases", "c", 0); ("paths", "/repos/c", 0)].
Proof. reflexivity. Qed.

(** C1, the claim as written fails: with the alias [obrien] (an o, a
    double quote, then brien) the quote closes the first operand of the
    insert text early, the engine rejects the statement, nothing is stored,
    and the query for that alias fails as well. *)
Lemma quoted_alias_is_not_inserted :
  sprintf insert_query [AStr obrien; AStr "/repos/o"]
  = "INSERT INTO repos_table (aliases, paths) VALUES(" ++ q ++ "o" ++ q ++ "brien"
      ++ q ++ ", " ++ q ++ "/repos/o" ++ q ++ ")"
  /\ (let (s1, w1) := add_repo_to_db store obrien "o" fresh in
      let (s2, w2) := forsome_repos store accept obrien w1 in
      s1 = SQLITE_ERROR /\ entries w1 store = Some []
      /\ s2 = SQLITE_ERROR /\ calls w2 = []).
Proof. split; [reflexivity|]. vm_compute. repeat split. Qed.

Lemma values_are_spliced_witness :
  faults filled = [] /\ files filled store = Regular (Db (mkDb (Some two_rows) 2 1))
  /\ realpath_of filled "c" = Some "/repos/c"
  /\ no_dquote "c" = true /\ names_column "c" = false /\ no_dquote "/repos/c" = true
  /\ conflicts "c" "/repos/c" two_rows = false
  /\ (let (s1, w1) := add_repo_to_db store "c" "c" filled in
      let (s2, w2) := forsome_repos store accept "c" w1 in
      s1 = SQLITE_OK
      /\ calls w2 = (calls filled
                     ++ [("paths", "/repos/c", fst (accept "paths" "/repos/c" (user filled)))])%list).
Proof.
  do 7 (split; [reflexivity|]).
  exact (proj2 (proj2 (values_are_spliced_into_the_sql_text
                         filled accept store "c" "c" "/repos/c"
                         (mkDb (Some two_rows) 2 1) eq_refl eq_refl eq_refl))
               eq_refl eq_refl eq_refl two_rows eq_refl eq_refl).
Defined.

(** C2, the claim as written fails: the alias [paths] is inserted, but
    between double quotes in the query it names the column, so the lookup
    compares each alias with its own path and calls the handler not at
    all. *)
Lemma alias_named_like_a_column_is_not_found :
  let (s1, w1) := add_repo_to_db store "paths" "p" fresh in
  let (s2, w2) := forsome_repos store accept "paths" w1 in
  s1 = SQLITE_OK /\ entries w1 store = Some [mkRow 1 "paths" "/repos/p"]
  /\ s2 = SQLITE_OK /\ calls w2 = [].
Proof. vm_compute. repeat split. Qed.

Lemma insert_then_forsome_witness :
  faults filled = [] /\ entries filled store = Some two_rows
  /\ realpath_of filled "c" = Some "/repos/c"
  /\ no_dquote "c" = true /\ names_column "c" = false /\ no_dquote "/repos/c" = true
  /\ conflicts "c" "/repos/c" two_rows = false
  /\ realpath_of filled "missing" = None
  /\ (let (s1, w1) := add_repo_to_db store "c" "c" filled in
      let (s2, w2) := forsome_repos store accept "c" w1 in
      s1 = SQLITE_OK
      /\ exists r, calls w2 = (calls filled ++ [("paths", "/repos/c", r)])%list
                   /\ r = fst (accept "paths" "/repos/c" (user filled))
                   /\ s2 = (if r =? 0 then SQLITE_OK else SQLITE_ABORT))
  /\ (let (s, w') := add_repo_to_db store "c" "missing" filled in
      s = SQLITE_ERROR /\ files w' = files filled).
Proof.
  do 8 (split; [reflexivity|]).
  pose proof (insert_then_forsome_delivers_the_resolved_path
                filled accept store "c" "c" "/repos/c" two_rows
                eq_refl eq_refl eq_refl eq_refl eq_refl eq_refl eq_refl) as T.
  split; [exact (proj1 T) | exact (proj2 T filled "missing" eq_refl)].
Defined.

(** C3, the claim as written fails: with the path of [a] already stored,
    an insert for the same path under an alias with a double quote in it is
    refused as a malformed statement ([SQLITE_ERROR]), not as a constraint
    violation. *)
Lemma quoted_duplicate_is_not_a_constraint_violation :
  let alias := "b" ++ q ++ "c" in
  let (s, w') := add_repo_to_db store alias "a" filled in
  realpath_of filled "a" = Some (paths row_a) /\ In row_a two_rows
  /\ s = SQLITE_ERROR /\ s <> SQLITE_CONSTRAINT /\ entries w' store = Some two_rows.
Proof. vm_compute. repeat split; auto. discriminate. Qed.

Lemma duplicate_insert_witness :
  faults filled = [] /\ entries filled store = Some two_rows
  /\ realpath_of filled "z" = Some "/repos/z"
  /\ no_dquote "a" = true /\ no_dquote "/repos/z" = true
  /\ (exists r, In r two_rows /\ (aliases r = "a" \/ paths r = "/repos/z"))
  /\ (let (s, w') := add_repo_to_db store "a" "z" filled in
      s = SQLITE_CONSTRAINT /\ entries w' store = Some two_rows
      /\ forall p, files w' p = files filled p).
Proof.
  assert (Hdup : exists r, In r two_rows /\ (aliases r = "a" \/ paths r = "/repos/z")).
  { exists row_a. split; [right; left; reflexivity | left; reflexivity]. }
  do 5 (split; [reflexivity|]). split; [exact Hdup|].
  exact (duplicate_insert_is_a_constraint_violation
           filled store "a" "z" "/repos/z" two_rows
           eq_refl eq_refl eq_refl eq_refl eq_refl Hdup).
Defined.

(** C8, the claim as written fails: no entry has the alias [aliases], yet
    removing it empties the table, because between double quotes the text
    names the column and every row matches. *)
Lemma removing_a_column_name_deletes_every_row :
  Forall (fun r => aliases r <> "aliases") two_rows
  /\ (let (s, w') := remove_repo_from_db store "aliases" filled in
      s = SQLITE_OK /\ entries filled store = Some two_rows
      /\ entries w' store = Some []).
Proof.
  split.
  - repeat constructor; discriminate.
  - vm_compute. repeat split.
Qed.

Lemma remove_witness :
  faults filled = [] /\ entries filled store = Some two_rows
  /\ no_dquote "zz" = true /\ names_column "zz" = false
  /\ (let (s, w') := remove_repo_from_db store "zz" filled in
      s = SQLITE_OK
      /\ entries w' store = Some (filter (fun r => negb (aliases r =? "zz")%string) two_rows)
      /\ (Forall (fun r => aliases r <> "zz") two_rows ->
          entries w' store = Some two_rows /\ forall p, files w' p = files filled p)).
Proof.
  do 4 (split; [reflexivity|]).
  exact (remove_succeeds_without_a_match filled store "zz" two_rows
           eq_refl eq_refl eq_refl eq_refl).
Defined.



Example rejecting_handler_sees_both_columns :
  let '((status, _), w') :=
    foreach_repo_callback (mkContainer reject) 2 ["a"; "/repos/a"]
                          ["aliases"; "paths"] filled in
  status = 5 /\ calls w' = [("aliases", "a", 4); ("paths", "/repos/a", 1)]
  /\ fst (foreach_repo store reject filled) = -1.
Proof. vm_compute. repeat split. Qed.

Lemma schema_version_parse_witness :
  let res := fst (schema_version_callback 0 1 ["12x"] ["schema_version"] filled) in
  "12x" = "12" ++ String "x" "" /\ has_digit "12" = true /\ isdigit "x" = false
  /\ res = (-1, -1)
  /\ fst (schema_version_callback 0 1 [""] ["schema_version"] filled) = (-1, -1)
  /\ fst (schema_version_callback 0 2 ["1"; "2"] ["schema_version"; "x"] filled) = (-1, -1)
  /\ fst (schema_version_callback 0 1 ["1"] ["user_version"] filled) = (-1, -1)
  /\ fst (schema_version_callback 0 1 ["1"] ["schema_version"] filled) = (0, 1).
Proof.
  cbv zeta. do 3 (split; [reflexivity|]).
  split.
  - exact (proj1 (proj2 (proj2 (proj2 (schema_version_parse_is_strict
             filled 0 1 ["12x"] ["schema_version"])))) "12" "x"%char "" eq_refl eq_refl eq_refl).
  - repeat split; reflexivity.
Defined.

Lemma version_mismatch_witness :
  let w := process (Regular (Db (mkDb (Some two_rows) 2 2))) [] in
  wordexp_of w DB_LOCATION = Some [store]
  /\ files w store = Regular (Db (mkDb (Some two_rows) 2 2))
  /\ hd false (faults w) = false
  /\ INT_MIN <= 2 <= INT_MAX /\ 2 <> SCHEMA_VERSION
  /\ (let (r, w') := get_db_handle w in
      r = None /\ conns w' = conns w /\ (forall p, files w' p = files w p)
      /\ out w' = (out w ++ [("Corrupt database or old schema." ++ nl)%string;
                             ("DB: " ++ store ++ nl)%string])%list).
Proof.
  cbv zeta.
  assert (Hr : INT_MIN <= 2 <= INT_MAX) by (unfold INT_MIN, INT_MAX; lia).
  assert (Hn : 2 <> SCHEMA_VERSION) by discriminate.
  do 3 (split; [reflexivity|]). split; [exact Hr|]. split; [exact Hn|].
  exact (version_mismatch_is_refused
           (process (Regular (Db (mkDb (Some two_rows) 2 2))) []) store []
           (mkDb (Some two_rows) 2 2) eq_refl eq_refl eq_refl Hr Hn).
Defined.

(** C7, the claim as written fails: when opening fails, [create_new_db]
    returns NULL with the connection that [sqlite3_open] handed out still
    open, and without any [unlink]. *)
Lemma failed_open_leaves_the_connection_open :
  let w := process Absent [true] in
  let (r, w') := create_new_db store w in
  r = None /\ conns w = [] /\ conns w' = [store]
  /\ out w' = [("Failed to create a new database." ++ nl)%string].
Proof. vm_compute. repeat split. Qed.

Lemma create_new_db_witness :
  let w := process Absent [false; false; true] in
  files w store = Absent
  /\ hd false (faults w) = false /\ hd false (tl (tl (faults w))) = true
  /\ (let (r, w') := create_new_db store w in
      r = None /\ conns w' = conns w /\ files w' store = Absent
      /\ (forall p, p <> store -> files w' p = files w p)).
Proof.
  cbv zeta. do 3 (split; [reflexivity|]).
  pose proof (create_new_db_cleans_up_after_a_failed_statement
                (process Absent [false; false; true]) store eq_refl) as T.
  destruct (create_new_db store (process Absent [false; false; true])) as [r w'].
  exact (proj1 (proj2 T) eq_refl (or_intror eq_refl)).
Defined.

Example create_then_reopen :
  let (r, w') := create_new_db store (process Absent []) in
  r = Some store /\ fst (get_db_handle w') = Some store
  /\ fst (get_schema_version store w') = SCHEMA_VERSION.
Proof. vm_compute. repeat split. Qed.

Lemma minus_one_witness :
  let w := process Absent [] in
  let d := mkDb (Some two_rows) 2 (-1) in
  wordexp_of w DB_LOCATION = Some [store]
  /\ hd false (faults w) = false /\ schema_cookie d = -1
  /\ (let (r1, w1) := get_db_handle (with_db store d w) in
      let (r2, w2) := get_db_handle (snd (write_file store (Regular NotADb) w)) in
      r1 = None /\ r2 = None /\ out w1 = out w2 /\ conns w1 = conns w2
      /\ conns w1 = conns w)
  /\ fst (get_schema_version store (with_db store d w)) = -1
  /\ fst (get_schema_version store (snd (write_file store (Regular NotADb) w))) = -1.
Proof.
  cbv zeta. do 3 (split; [reflexivity|]).
  pose proof (minus_one_is_the_only_error_value
                (process Absent []) store [] (mkDb (Some two_rows) 2 (-1))
                eq_refl eq_refl eq_refl) as (_ & T2 & T3 & T4 & _).
  split; [exact T4|]. split.
  - apply T3; reflexivity.
  - apply T2. right. reflexivity.
Defined.

(** * Concrete instances of the further properties *)

Lemma all_or_nothing_witness :
  no_dquote "c" = true
  /\ (forall abspath, realpath_of filled "c" = Some abspath -> no_dquote abspath = true)
  /\ (let (s, w') := add_repo_to_db store "c" "c" filled in
      (s = SQLITE_OK
       /\ exists rows abspath i,
            realpath_of filled "c" = Some abspath /\ entries filled store = Some rows
            /\ conflicts "c" abspath rows = false
            /\ entries w' store = Some (rows ++ [mkRow i "c" abspath])%list
            /\ forall p, p <> store -> files w' p = files filled p)
      \/ (s <> SQLITE_OK /\ forall p, files w' p = files filled p)).
Proof.
  assert (Hq : forall abspath, realpath_of filled "c" = Some abspath ->
                               no_dquote abspath = true).
  { intros abspath Heq. cbn in Heq. inversion Heq. reflexivity. }
  split; [reflexivity|]. split; [exact Hq|].
  exact (add_repo_to_db_is_all_or_nothing filled store "c" "c" eq_refl Hq).
Defined.



Lemma unknown_alias_witness :
  faults filled = [] /\ entries filled store = Some two_rows
  /\ no_dquote "zz" = true /\ names_column "zz" = false
  /\ Forall (fun r => aliases r <> "zz") two_rows
  /\ (let (s, w') := forsome_repos store reject "zz" filled in
      s = SQLITE_OK /\ calls w' = calls filled /\ forall p, files w' p = files filled p).
Proof.
  assert (Hnone : Forall (fun r => aliases r <> "zz") two_rows)
    by (repeat constructor; discriminate).
  do 4 (split; [reflexivity|]). split; [exact Hnone|].
  exact (forsome_repos_unknown_alias_calls_nothing filled reject store "zz" two_rows
           eq_refl eq_refl eq_refl eq_refl Hnone).
Defined.





Lemma reject_always_fails : forall c v u, fst (reject c v u) <> 0.
Proof.
  intros c v u. unfold reject. cbn [fst].
  destruct (c =? "aliases")%string; discriminate.
Defined.

Lemma first_failing_row_witness :
  faults filled = [] /\ entries filled store = Some two_rows /\ two_rows <> []
  /\ (forall c v u, fst (reject c v u) <> 0)
  /\ (let (s, w') := foreach_repo store reject filled in
      s = -1
      /\ exists first rest r1 r2,
           Permutation (first :: rest) two_rows /\ Sorted alias_le (first :: rest)
           /\ calls w' = (calls filled ++ [("aliases", aliases first, r1);
                                           ("paths", paths first, r2)])%list).
Proof.
  assert (Hne : two_rows <> []) by discriminate.
  do 2 (split; [reflexivity|]). split; [exact Hne|]. split; [exact reject_always_fails|].
  exact (foreach_repo_stops_after_the_first_failing_row filled reject store two_rows
           eq_refl eq_refl Hne reject_always_fails).
Defined.

Lemma failed_listing_witness :
  let w := process (Regular NotADb) [] in
  (hd false (faults w) = true \/ entries w store = None)
  /\ (let (s, w') := foreach_repo store accept w in
      s = -1 /\ calls w' = calls w /\ forall p, files w' p = files w p).
Proof.
  cbv zeta. split; [right; reflexivity|].
  exact (foreach_repo_fails_without_calling_the_handler
           (process (Regular NotADb) []) accept store (or_intror eq_refl)).
Defined.

Lemma stamp_witness :
  let d := mkDb (Some two_rows) 2 (-7) in
  let w := process (Regular (Db d)) [] in
  hd false (faults w) = false /\ files w store = Regular (Db d)
  /\ INT_MIN <= schema_cookie d <= INT_MAX
  /\ (let (v, w') := get_schema_version store w in
      v = schema_cookie d
      /\ (forall p, files w' p = files w p) /\ conns w' = conns w /\ out w' = out w).
Proof.
  cbv zeta.
  assert (Hr : INT_MIN <= schema_cookie (mkDb (Some two_rows) 2 (-7)) <= INT_MAX)
    by (cbn; unfold INT_MIN, INT_MAX; lia).
  do 2 (split; [reflexivity|]). split; [exact Hr|].
  exact (get_schema_version_returns_the_stamp
           (process (Regular (Db (mkDb (Some two_rows) 2 (-7)))) []) store
           (mkDb (Some two_rows) 2 (-7)) eq_refl eq_refl Hr).
Defined.

Lemma accepted_store_witness :
  wordexp_of filled DB_LOCATION = Some [store]
  /\ files filled store = Regular (Db (mkDb (Some two_rows) 2 1))
  /\ schema_cookie (mkDb (Some two_rows) 2 1) = SCHEMA_VERSION
  /\ hd false (faults filled) = false /\ hd false (tl (faults filled)) = false
  /\ (let (r, w') := get_db_handle filled in
      r = Some store /\ conns w' = store :: conns filled /\ out w' = out filled
      /\ err w' = err filled /\ forall p, files w' p = files filled p).
Proof.
  do 5 (split; [reflexivity|]).
  exact (get_db_handle_accepts_the_current_version filled store []
           (mkDb (Some two_rows) 2 1) eq_refl eq_refl eq_refl eq_refl eq_refl).
Defined.

Lemma existing_file_witness :
  let w := process (Regular (Db (mkDb (Some two_rows) 2 2))) [false; true] in
  wordexp_of w DB_LOCATION = Some [store]
  /\ files w store <> Absent
  /\ (forall d, files w store = Regular (Db d) -> INT_MIN <= schema_cookie d <= INT_MAX)
  /\ (let (r, w') := get_db_handle w in
      (forall p, files w' p = files w p)
      /\ (forall dbh, r = Some dbh ->
            dbh = store
            /\ exists d, files w store = Regular (Db d)
                         /\ schema_cookie d = SCHEMA_VERSION)).
Proof.
  cbv zeta.
  assert (Hne : files (process (Regular (Db (mkDb (Some two_rows) 2 2))) [false; true])
                      store <> Absent) by discriminate.
  assert (Hr : forall d,
             files (process (Regular (Db (mkDb (Some two_rows) 2 2))) [false; true]) store
             = Regular (Db d) -> INT_MIN <= schema_cookie d <= INT_MAX).
  { intros d Heq. cbn in Heq. inversion Heq. cbn. unfold INT_MIN, INT_MAX. lia. }
  split; [reflexivity|]. split; [exact Hne|]. split; [exact Hr|].
  exact (get_db_handle_touches_no_existing_file
           (process (Regular (Db (mkDb (Some two_rows) 2 2))) [false; true]) store []
           eq_refl Hne Hr).
Defined.

Lemma create_close_reopen_witness :
  let w := process Absent [] in
  wordexp_of w DB_LOCATION = Some [store] /\ files w store = Absent /\ faults w = []
  /\ (let (r1, w1) := get_db_handle w in
      let (v1, _) := get_schema_version store w1 in
      let (_, w2) := close_db_handle store w1 in
      let (r2, w3) := get_db_handle w2 in
      let (v2, _) := get_schema_version store w3 in
      r1 = Some store /\ r2 = Some store
      /\ v1 = SCHEMA_VERSION /\ v2 = SCHEMA_VERSION
      /\ conns w2 = conns w /\ entries w3 store = Some [] /\ out w3 = out w).
Proof.
  cbv zeta. do 3 (split; [reflexivity|]).
  exact (create_close_reopen (process Absent []) store [] eq_refl eq_refl eq_refl).
Defined.

Lemma large_number_witness :
  0 <= 4294967297 < 10 ^ 20
  /\ utoa 4294967297 = "4294967297"
  /\ schema_version_callback 0 1 ["4294967297"] ["schema_version"] filled
     = ((0, 1), filled).
Proof.
  assert (Hn : 0 <= 4294967297 < 10 ^ 20) by (split; [lia | reflexivity]).
  split; [exact Hn|]. split; [reflexivity|].
  exact (schema_version_callback_wraps_large_numbers filled 0 4294967297 Hn).
Defined.

Lemma buffers_witness :
  strlen "/repos/a" < PATH_MAX
  /\ strlen (sprintf forsome_query [AStr "a"]) + 1 = strlen forsome_query + strlen "a" - 1
  /\ strlen (sprintf insert_query [AStr "a"; AStr "/repos/a"]) + 1
     <= strlen insert_query + PATH_MAX + strlen "a" + 1.
Proof.
  pose proof (formatted_queries_fit_their_buffers "a" "/repos/a") as (T1 & _ & T3).
  assert (Hlt : strlen "/repos/a" < PATH_MAX) by reflexivity.
  split; [exact Hlt|]. split; [exact T1 | exact (T3 Hlt)].
Defined.

